(** * everest: aggregates and specification translation

    A shallow embedding of
    - [everest/entities/aggregates.py] (memory and ORM aggregates), and
    - [everest/resources/base.py] (the resource-to-entity specification
      visitors and the collection's filter setter),
    together with the properties of the query layer that they implement. *)

From Stdlib Require Import ZArith String Ascii List Lia Sorting.Permutation.
From stdpp Require Import base option list strings gmap.

Local Open Scope string_scope.
Local Open Scope Z_scope.

(** ** Python values, exceptions and results *)

(** The attribute values entities carry in this development: [None],
    integers and strings. *)
Inductive value : Type :=
| VNone
| VInt (z : Z)
| VStr (s : string).

Global Instance value_eq_dec : EqDecision value.
Proof. solve_decision. Defined.

Global Instance value_inhabited : Inhabited value := populate VNone.

(** Python's [==] on these values. *)
Definition py_eq (a b : value) : bool := bool_decide (a = b).

(** The exceptions the modelled code raises. *)
Inductive exn : Type :=
| DuplicateException
| ValueError
| AttributeError
| KeyError
| IndexError
| TypeError.

Global Instance exn_eq_dec : EqDecision exn.
Proof. solve_decision. Defined.

(** A call either returns or raises. *)
Inductive result (A : Type) : Type :=
| Ok (a : A)
| Raise (e : exn).

Arguments Ok {A} a.
Arguments Raise {A} e.

Definition bind {A B : Type} (r : result A) (k : A -> result B) : result B :=
  match r with
  | Ok a => k a
  | Raise e => Raise e
  end.

Notation "'let*' x ':=' r 'in' k" := (bind r (fun x => k))
  (at level 10, x name, r at level 100, k at level 200).
Notation "'let*' ' p ':=' r 'in' k" := (bind r (fun x => let 'p := x in k))
  (at level 10, p strict pattern, r at level 100, k at level 200).

(** A list comprehension with a condition that may raise:
    [[x for x in l if p(x)]]; the first raising test aborts the whole. *)
Fixpoint filterM {A : Type} (p : A -> result bool) (l : list A)
  : result (list A) :=
  match l with
  | [] => Ok []
  | x :: l' =>
      let* b := p x in
      let* r := filterM p l' in
      Ok (if b then x :: r else r)
  end.

(** ** Entities *)

(** An entity object: the classes it is an instance of (its class and the
    bases of that class) and its instance attributes. *)
Record entity : Type := Entity {
  ent_classes : list string;
  ent_attrs : gmap string value
}.

Global Instance entity_eq_dec : EqDecision entity.
Proof. solve_decision. Defined.

Global Instance entity_inhabited : Inhabited entity :=
  populate (Entity [] ∅).

Definition isinstance (e : entity) (cls : string) : bool :=
  bool_decide (cls ∈ ent_classes e).

Definition hasattr (e : entity) (a : string) : bool :=
  bool_decide (is_Some (ent_attrs e !! a)).

Definition getattr (e : entity) (a : string) : result value :=
  match ent_attrs e !! a with
  | Some v => Ok v
  | None => Raise AttributeError
  end.

(** ** Specifications *)

(** The classes of nullary filter specifications; the class of a
    specification fixes its operator. *)
Inductive filter_class : Type :=
| ValueEqualTo
| ValueStartsWith
| ValueEndsWith
| ValueContains
| ValueContainedIn
| ValueLessThan
| ValueLessThanOrEqualTo
| ValueGreaterThan
| ValueGreaterThanOrEqualTo
| ValueInRange.

(** The classes of nullary order specifications. *)
Inductive order_class : Type :=
| Ascending
| Descending.

Inductive unary_class : Type :=
| Negation.

Inductive binary_class : Type :=
| Conjunction
| Disjunction.

Global Instance filter_class_eq_dec : EqDecision filter_class.
Proof. solve_decision. Defined.
Global Instance order_class_eq_dec : EqDecision order_class.
Proof. solve_decision. Defined.
Global Instance unary_class_eq_dec : EqDecision unary_class.
Proof. solve_decision. Defined.
Global Instance binary_class_eq_dec : EqDecision binary_class.
Proof. solve_decision. Defined.

(** A leaf of a filter specification: [cls(attr_name, attr_value)]; the
    comparison values are one or more values, depending on the operator. *)
Record filter_leaf : Type := FilterLeaf {
  f_class : filter_class;
  f_attr_name : string;
  f_attr_value : list value
}.

(** A leaf of an order specification: [cls(attr_name)]. *)
Record order_leaf : Type := OrderLeaf {
  o_class : order_class;
  o_attr_name : string
}.

(** Specification trees over a kind of leaf. *)
Inductive spec (L : Type) : Type :=
| Nullary (leaf : L)
| Unary (cls : unary_class) (wrapped : spec L)
| Binary (cls : binary_class) (left_spec right_spec : spec L).

Arguments Nullary {L} leaf.
Arguments Unary {L} cls wrapped.
Arguments Binary {L} cls left_spec right_spec.

Abbreviation filter_spec := (spec filter_leaf).
Abbreviation order_spec := (spec order_leaf).

(** What the resource-to-entity visitors need of a leaf: its attribute
    name, and [_make_new_spec], which the two concrete visitor classes
    implement. *)
Class LeafSpec (L : Type) : Type := {
  attr_name : L -> string;
  _make_new_spec : string -> L -> L
}.

(** [ResourceToEntityFilterSpecificationVisitor._make_new_spec]:
    [old_spec.__class__(new_attr_name, old_spec.attr_value)]. *)
Global Instance filter_leaf_spec : LeafSpec filter_leaf := {|
  attr_name := f_attr_name;
  _make_new_spec new_attr_name old_spec :=
    FilterLeaf (f_class old_spec) new_attr_name (f_attr_value old_spec)
|}.

(** [ResourceToEntityOrderSpecificationVisitor._make_new_spec]:
    [old_spec.__class__(new_attr_name)]. *)
Global Instance order_leaf_spec : LeafSpec order_leaf := {|
  attr_name := o_attr_name;
  _make_new_spec new_attr_name old_spec :=
    OrderLeaf (o_class old_spec) new_attr_name
|}.

(** ** The visitor framework *)

(** A concrete visitor supplies the three visiting methods; each runs on
    the visitor's expression stack.  The unary and binary methods read
    only the class of the specification they visit. *)
Class Visitor (L E : Type) : Type := {
  visit_nullary : L -> list E -> result (list E);
  visit_unary : unary_class -> list E -> result (list E);
  visit_binary : binary_class -> list E -> result (list E)
}.

(** Modelled from the spec: [SpecificationVisitorBase] of
    [everest.querying.base], which is not among the sources.  The visitor
    holds a stack of partially built expressions, the top of the stack
    first; [_push] adds to the top. *)
Definition _push {E : Type} (e : E) (stack : list E) : list E := e :: stack.

(** Modelled from the spec: [SpecificationVisitorBase._pop] removes the
    top of the stack and returns it; popping an empty list raises
    [IndexError]. *)
Definition _pop {E : Type} (stack : list E) : result (E * list E) :=
  match stack with
  | [] => Raise IndexError
  | e :: stack' => Ok (e, stack')
  end.

(** Modelled from the spec: the [expression] of a visitor is the value
    its traversal left on the stack. *)
Definition expression {E : Type} (stack : list E) : result E :=
  match stack with
  | [] => Raise IndexError
  | e :: _ => Ok e
  end.

(** Modelled from the spec: [accept] of the specification classes, which
    are not among the sources.  The children accept the visitor first,
    the left before the right, then the node itself is visited. *)
Fixpoint accept {L E : Type} `{!Visitor L E} (s : spec L) (stack : list E)
  : result (list E) :=
  match s with
  | Nullary leaf => visit_nullary leaf stack
  | Unary cls wrapped =>
      let* stack := accept wrapped stack in
      visit_unary cls stack
  | Binary cls left_spec right_spec =>
      let* stack := accept left_spec stack in
      let* stack := accept right_spec stack in
      visit_binary cls stack
  end.

(** Modelled from the spec: the stack discipline every concrete visitor
    follows.  A nullary visit computes a value and pushes it; a unary
    visit pops one value and pushes the value computed from it; a binary
    visit pops two values, the right one first, and pushes the value
    computed from them. *)
Definition stack_visitor {L E : Type} (nullary_op : L -> E)
    (unary_op : unary_class -> E -> E)
    (binary_op : binary_class -> E -> E -> E) : Visitor L E := {|
  visit_nullary leaf stack := Ok (_push (nullary_op leaf) stack);
  visit_unary cls stack :=
    let* '(last, stack) := _pop stack in
    Ok (_push (unary_op cls last) stack);
  visit_binary cls stack :=
    let* '(right_expr, stack) := _pop stack in
    let* '(left_expr, stack) := _pop stack in
    Ok (_push (binary_op cls left_expr right_expr) stack)
|}.

(** The value a bottom-up evaluation of a tree computes with the same
    operations, without a stack. *)
Fixpoint fold_spec {L E : Type} (nullary_op : L -> E)
    (unary_op : unary_class -> E -> E)
    (binary_op : binary_class -> E -> E -> E) (s : spec L) : E :=
  match s with
  | Nullary leaf => nullary_op leaf
  | Unary cls wrapped =>
      unary_op cls (fold_spec nullary_op unary_op binary_op wrapped)
  | Binary cls left_spec right_spec =>
      binary_op cls (fold_spec nullary_op unary_op binary_op left_spec)
                    (fold_spec nullary_op unary_op binary_op right_spec)
  end.

(** ** Resource attribute metadata *)

Inductive ResourceAttributeKinds : Type :=
| TERMINAL
| MEMBER
| COLLECTION.

Global Instance ResourceAttributeKinds_eq_dec : EqDecision ResourceAttributeKinds.
Proof. solve_decision. Defined.

(** The descriptor of a resource attribute.  Classes and interfaces are
    identified by their names. *)
Record resource_attribute : Type := ResourceAttribute {
  kind : ResourceAttributeKinds;
  entity_name : string;
  value_type : string
}.

(** The registry of the resource layer, which is not among the sources:
    the attribute descriptors of every resource class, by attribute name,
    and the member class registered for a resource interface. *)
Record registry : Type := Registry {
  get_resource_class_attributes : string -> gmap string resource_attribute;
  get_member_class : string -> string
}.

(** ** Strings: [str.split('.')] and ['.'.join] *)

Definition dot : ascii := "."%char.

(** [s.split('.')]: never empty; an empty string gives one empty token. *)
Fixpoint split_dot (s : string) : list string :=
  match s with
  | EmptyString => [EmptyString]
  | String c s' =>
      if Ascii.eqb c dot then EmptyString :: split_dot s'
      else match split_dot s' with
           | [] => [String c EmptyString]
           | tok :: toks => String c tok :: toks
           end
  end.

(** ['.'.join(tokens)]. *)
Definition join_dot (tokens : list string) : string :=
  String.concat "." tokens.

(** ** The resource-to-entity specification visitors *)

Section ResourceToEntitySpecificationVisitor.
Context (reg : registry).
Context {L : Type} `{!LeafSpec L}.

(** The loop of [__convert_to_entity_attr]: it threads the current
    resource class and the entity tokens collected so far.  A token that
    is not a key of the attribute mapping raises [KeyError]. *)
Fixpoint convert_loop (tokens : list string) (rc_class : string)
    (entity_attr_tokens : list string) : result (list string) :=
  match tokens with
  | [] => Ok entity_attr_tokens
  | rc_attr_token :: tokens' =>
      match get_resource_class_attributes reg rc_class !! rc_attr_token with
      | None => Raise KeyError
      | Some rc_attr =>
          let ent_attr_name := entity_name rc_attr in
          let rc_class :=
            if bool_decide (kind rc_attr ≠ TERMINAL)
            then get_member_class reg (value_type rc_attr)
            else rc_class in
          convert_loop tokens' rc_class (entity_attr_tokens ++ [ent_attr_name])%list
      end
  end.

Definition __convert_to_entity_attr (rc_class : string)
    (rc_attr_name : string) : result string :=
  let* entity_attr_tokens := convert_loop (split_dot rc_attr_name) rc_class [] in
  Ok (join_dot entity_attr_tokens).

(** The visitor for the resource class [rc_class]; its expressions are
    specifications. *)
Definition rte_visit_nullary (rc_class : string) (leaf : L)
    (stack : list (spec L)) : result (list (spec L)) :=
  let* entity_attr_name := __convert_to_entity_attr rc_class (attr_name leaf) in
  let new_spec := Nullary (_make_new_spec entity_attr_name leaf) in
  Ok (_push new_spec stack).

Definition rte_visit_unary (cls : unary_class) (stack : list (spec L))
  : result (list (spec L)) :=
  let* '(last, stack) := _pop stack in
  let new_spec := Unary cls last in
  Ok (_push new_spec stack).

Definition rte_visit_binary (cls : binary_class) (stack : list (spec L))
  : result (list (spec L)) :=
  let* '(right_spec, stack) := _pop stack in
  let* '(left_spec, stack) := _pop stack in
  let new_spec := Binary cls left_spec right_spec in
  Ok (_push new_spec stack).

Definition ResourceToEntitySpecificationVisitor (rc_class : string)
  : Visitor L (spec L) := {|
  visit_nullary := rte_visit_nullary rc_class;
  visit_unary := rte_visit_unary;
  visit_binary := rte_visit_binary
|}.

(** What the setters of a collection do with a specification: build a
    visitor for the member class, let the specification accept it and
    read the visitor's expression. *)
Definition translate (rc_class : string) (s : spec L) : result (spec L) :=
  let visitor := ResourceToEntitySpecificationVisitor rc_class in
  let* stack := accept (Visitor0 := visitor) s [] in
  expression stack.

End ResourceToEntitySpecificationVisitor.

(** ** In-memory evaluation of specifications *)

(** The order of Python 2 on the modelled values: [None] is smaller than
    everything, numbers are smaller than strings. *)
Definition value_compare (a b : value) : comparison :=
  match a, b with
  | VNone, VNone => Eq
  | VNone, _ => Lt
  | _, VNone => Gt
  | VInt x, VInt y => Z.compare x y
  | VInt _, VStr _ => Lt
  | VStr _, VInt _ => Gt
  | VStr x, VStr y => String.compare x y
  end.

Definition value_leb (a b : value) : bool :=
  match value_compare a b with
  | Gt => false
  | _ => true
  end.

Definition value_ltb (a b : value) : bool :=
  match value_compare a b with
  | Lt => true
  | _ => false
  end.

Definition string_suffix (x s : string) : bool :=
  String.prefix (String.rev x) (String.rev s).

Definition string_contains (x s : string) : bool :=
  match String.index 0 x s with
  | Some _ => true
  | None => false
  end.

(** Modelled from the spec: the value tests of the in-memory filter
    visitor, which is not among the sources: direct value comparison,
    string prefix, suffix and substring tests, membership in the given
    values, ordinal comparisons and the inclusive range test.  A string
    test on a value that is not a string raises [AttributeError]; a leaf
    with the wrong number of comparison values raises [TypeError]. *)
Definition value_test (cls : filter_class) (v : value) (args : list value)
  : result bool :=
  match cls, args with
  | ValueEqualTo, [x] => Ok (py_eq v x)
  | ValueStartsWith, [VStr x] =>
      match v with VStr s => Ok (String.prefix x s) | _ => Raise AttributeError end
  | ValueEndsWith, [VStr x] =>
      match v with VStr s => Ok (string_suffix x s) | _ => Raise AttributeError end
  | ValueContains, [VStr x] =>
      match v with VStr s => Ok (string_contains x s) | _ => Raise AttributeError end
  | ValueContainedIn, xs => Ok (bool_decide (v ∈ xs))
  | ValueLessThan, [x] => Ok (value_ltb v x)
  | ValueLessThanOrEqualTo, [x] => Ok (value_leb v x)
  | ValueGreaterThan, [x] => Ok (value_ltb x v)
  | ValueGreaterThanOrEqualTo, [x] => Ok (value_leb x v)
  | ValueInRange, [lo; hi] => Ok (value_leb lo v && value_leb v hi)
  | _, _ => Raise TypeError
  end.

Definition leaf_test (leaf : filter_leaf) (ent : entity) : result bool :=
  let* v := getattr ent (f_attr_name leaf) in
  value_test (f_class leaf) v (f_attr_value leaf).

(** Python's [and], [or] and [not] on tests that may raise; [and] and
    [or] evaluate their right operand only when needed. *)
Definition and_op (p q : entity -> result bool) : entity -> result bool :=
  fun ent => let* b := p ent in if b then q ent else Ok false.

Definition or_op (p q : entity -> result bool) : entity -> result bool :=
  fun ent => let* b := p ent in if b then Ok true else q ent.

Definition not_op (p : entity -> result bool) : entity -> result bool :=
  fun ent => let* b := p ent in Ok (negb b).

Definition binary_op (cls : binary_class)
  : (entity -> result bool) -> (entity -> result bool) -> entity -> result bool :=
  match cls with
  | Conjunction => and_op
  | Disjunction => or_op
  end.

(** Modelled from the spec: [is_satisfied_by] of the filter specification
    classes, which are not among the sources: the value test at a leaf,
    boolean composition above. *)
Fixpoint is_satisfied_by (s : filter_spec) : entity -> result bool :=
  match s with
  | Nullary leaf => leaf_test leaf
  | Unary Negation wrapped => not_op (is_satisfied_by wrapped)
  | Binary cls left_spec right_spec =>
      binary_op cls (is_satisfied_by left_spec) (is_satisfied_by right_spec)
  end.

(** Modelled from the spec: the in-memory filter visitor (registered under
    [EXPRESSION_KINDS.EVAL]), which is not among the sources.  It compiles
    a filter specification into a one-argument predicate. *)
Definition FilterSpecificationEvalVisitor
  : Visitor filter_leaf (entity -> result bool) :=
  stack_visitor leaf_test (fun _ => not_op) binary_op.

(** A comparator over pairs of entities. *)
Definition comparator : Type := entity -> entity -> result comparison.

Definition key_cmp (leaf : order_leaf) : comparator :=
  fun a b =>
    let* x := getattr a (o_attr_name leaf) in
    let* y := getattr b (o_attr_name leaf) in
    Ok (match o_class leaf with
        | Ascending => value_compare x y
        | Descending => CompOpp (value_compare x y)
        end).

(** The primary order first; ties are broken by the secondary order. *)
Definition then_cmp (c1 c2 : comparator) : comparator :=
  fun a b =>
    let* r := c1 a b in
    match r with
    | Eq => c2 a b
    | _ => Ok r
    end.

(** Modelled from the spec: the in-memory order visitor, which is not
    among the sources.  It compiles an order specification into a
    multi-key comparator; order specifications have no unary nodes and
    only conjunctions as binary nodes. *)
Definition OrderSpecificationEvalVisitor : Visitor order_leaf comparator := {|
  visit_nullary leaf stack := Ok (_push (key_cmp leaf) stack);
  visit_unary cls stack := Raise TypeError;
  visit_binary cls stack :=
    match cls with
    | Conjunction =>
        let* '(right_expr, stack) := _pop stack in
        let* '(left_expr, stack) := _pop stack in
        Ok (_push (then_cmp left_expr right_expr) stack)
    | Disjunction => Raise TypeError
    end
|}.

(** A stable insertion sort with a comparator that may raise. *)
Fixpoint insert_sorted (cmp : comparator) (x : entity) (l : list entity)
  : result (list entity) :=
  match l with
  | [] => Ok [x]
  | y :: l' =>
      let* r := cmp x y in
      match r with
      | Gt => let* rest := insert_sorted cmp x l' in Ok (y :: rest)
      | _ => Ok (x :: y :: l')
      end
  end.

Fixpoint sorted (cmp : comparator) (l : list entity) : result (list entity) :=
  match l with
  | [] => Ok []
  | x :: l' =>
      let* rest := sorted cmp l' in
      insert_sorted cmp x rest
  end.

(** ** Python slices *)

(** A [slice] object; [None] fields take their defaults. *)
Record py_slice : Type := Slice {
  start : option Z;
  stop : option Z;
  step : option Z
}.

(** [slice.indices(len)]: the start, stop and step of the slice on a
    sequence of length [len]; a zero step raises [ValueError]. *)
Definition slice_indices (key : py_slice) (len : Z) : result (Z * Z * Z) :=
  let step := default 1 (step key) in
  if step =? 0 then Raise ValueError
  else
    let lower := if step <? 0 then -1 else 0 in
    let upper := if step <? 0 then len - 1 else len in
    let adjust i := if i <? 0 then Z.max (i + len) lower else Z.min i upper in
    let start :=
      match start key with
      | None => if step <? 0 then upper else lower
      | Some i => adjust i
      end in
    let stop :=
      match stop key with
      | None => if step <? 0 then lower else upper
      | Some i => adjust i
      end in
    Ok (start, stop, step).

(** The number of indices [start, start + step, ...] before [stop]. *)
Definition slice_length (start stop step : Z) : Z :=
  if step <? 0
  then (if stop <? start then (start - stop - 1) / (- step) + 1 else 0)
  else (if start <? stop then (stop - start - 1) / step + 1 else 0).

(** [l[key]] for a slice [key]: a new list. *)
Definition py_getslice {A : Type} (l : list A) (key : py_slice)
  : result (list A) :=
  let* '(start, stop, step) := slice_indices key (Z.of_nat (length l)) in
  let n := slice_length start stop step in
  Ok (omap (fun i : nat => l !! Z.to_nat (start + Z.of_nat i * step))
           (seq 0 (Z.to_nat n))).

(** ** The object store *)

(** Lists of entities and relationships are shared, mutable objects: they
    live in a store and are referred to by their locations. *)
Definition loc : Type := nat.

(** A relationship to a parent entity (its class is not among the
    sources): the list of the children of the parent and the
    specification that selects them. *)
Record relationship : Type := Relationship {
  children : loc;
  specification : filter_spec
}.

Global Instance relationship_inhabited : Inhabited relationship :=
  populate (Relationship 0%nat (Nullary (FilterLeaf ValueEqualTo "" []))).

Record heap : Type := Heap {
  lists : gmap loc (list entity);
  rels : gmap loc relationship;
  next_loc : loc
}.

Definition empty_heap : heap := Heap ∅ ∅ 0%nat.

(** The list literal [[]]: a new, empty list. *)
Definition new_list (h : heap) : loc * heap :=
  (next_loc h, Heap (<[next_loc h := []]> (lists h)) (rels h) (S (next_loc h))).

(** A new relationship object over the given list of children. *)
Definition new_relationship (r : relationship) (h : heap) : loc * heap :=
  (next_loc h, Heap (lists h) (<[next_loc h := r]> (rels h)) (S (next_loc h))).

Definition read_list (h : heap) (l : loc) : list entity := lists h !!! l.

(** [ents.append(entity)], in place. *)
Definition list_append (h : heap) (l : loc) (ent : entity) : heap :=
  Heap (<[l := (read_list h l ++ [ent])%list]> (lists h)) (rels h) (next_loc h).

(** How [l.remove(x)] compares the item at position [i] with [x]: an item
    that is the object [x] itself matches before [==] is asked; otherwise
    the [==] of the class decides, the item on the left.  Which object an
    item is, is not part of its value: [same_object i] tells whether the
    item at position [i] of the list is the object [x]; such an item has
    the value of [x]. *)
Definition py_matches {A : Type} `{!EqDecision A} (same_object : nat -> bool)
    (eqb : A -> A -> bool) (x : A) (i : nat) (y : A) : bool :=
  (same_object i && bool_decide (y = x)) || eqb y x.

(** [l.remove(x)] from position [i] on: the list without its first item
    that matches [x]; when no item matches, [ValueError]. *)
Fixpoint py_list_remove_from {A : Type} `{!EqDecision A}
    (same_object : nat -> bool) (eqb : A -> A -> bool) (x : A) (i : nat)
    (l : list A) : result (list A) :=
  match l with
  | [] => Raise ValueError
  | y :: l' =>
      if py_matches same_object eqb x i y then Ok l'
      else
        let* rest := py_list_remove_from same_object eqb x (S i) l' in
        Ok (y :: rest)
  end.

Definition py_list_remove {A : Type} `{!EqDecision A}
    (same_object : nat -> bool) (eqb : A -> A -> bool) (x : A) (l : list A)
  : result (list A) :=
  py_list_remove_from same_object eqb x 0 l.

(** The assignment [r.children = entities] to a relationship object. *)
Definition set_children (h : heap) (r : loc) (entities : loc) : heap :=
  Heap (lists h)
       (<[r := Relationship entities (specification (rels h !!! r))]> (rels h))
       (next_loc h).

(** ** Aggregates *)

(** The state every aggregate implementation holds. *)
Module AggregateImpl.

Record t : Type := Make {
  _relationship : option loc;
  entity_class : string;
  _filter_spec : option filter_spec;
  _order_spec : option order_spec;
  _slice_key : option py_slice
}.

Definition __init__ (entity_class : string) : t :=
  Make None entity_class None None None.

(** The assignments of [clone], on the object [create] returned. *)
Definition clone (self clone : t) : t :=
  Make (_relationship self) (entity_class clone) (_filter_spec self)
       (_order_spec self) (_slice_key self).

Definition set_relationship (self : t) (relationship : option loc) : t :=
  Make relationship (entity_class self) (_filter_spec self)
       (_order_spec self) (_slice_key self).

(** The setters of the [filter], [order] and [slice] properties; the
    [_apply_*] hooks of both implementations do nothing. *)
Definition _set_filter (self : t) (filter_spec : option filter_spec) : t :=
  Make (_relationship self) (entity_class self) filter_spec
       (_order_spec self) (_slice_key self).

Definition _set_order (self : t) (order_spec : option order_spec) : t :=
  Make (_relationship self) (entity_class self) (_filter_spec self)
       order_spec (_slice_key self).

Definition _set_slice (self : t) (slice_key : option py_slice) : t :=
  Make (_relationship self) (entity_class self) (_filter_spec self)
       (_order_spec self) slice_key.

End AggregateImpl.

Definition py_is_none (v : value) : bool :=
  match v with
  | VNone => true
  | _ => false
  end.

Module MemoryAggregateImpl.

Import AggregateImpl.

Record t : Type := Make {
  base : AggregateImpl.t;
  __entities : loc
}.

Definition __init__ (entity_class : string) (h : heap) : t * heap :=
  let '(entities, h) := new_list h in
  (Make (AggregateImpl.__init__ entity_class) entities, h).

Definition create (entity_class : string) (h : heap) : t * heap :=
  __init__ entity_class h.

Definition clone (self : t) (h : heap) : t * heap :=
  let '(clone, h) := create (entity_class (base self)) h in
  let clone := Make (AggregateImpl.clone (base self) (base clone))
                    (__entities clone) in
  let clone :=
    match _relationship (base self) with
    | None => Make (base clone) (__entities self)
    | Some _ => clone
    end in
  (clone, h).

(** The list the aggregate works on: its own, or the children of its
    relationship. *)
Definition _get_entities (h : heap) (self : t) : loc :=
  match _relationship (base self) with
  | None => __entities self
  | Some r => children (rels h !!! r)
  end.

Definition iterator (h : heap) (self : t) : result (list entity) :=
  let ents := read_list h (_get_entities h self) in
  let* ents :=
    match _filter_spec (base self) with
    | None => Ok ents
    | Some filter_spec =>
        let* stack :=
          accept (Visitor0 := FilterSpecificationEvalVisitor) filter_spec [] in
        let* pred := expression stack in
        filterM pred ents
    end in
  let* ents :=
    match _order_spec (base self) with
    | None => Ok ents
    | Some order_spec =>
        let* stack :=
          accept (Visitor0 := OrderSpecificationEvalVisitor) order_spec [] in
        let* cmp := expression stack in
        sorted cmp ents
    end in
  let* ents :=
    match _slice_key (base self) with
    | None => Ok ents
    | Some slice_key => py_getslice ents slice_key
    end in
  Ok ents.

Definition count (h : heap) (self : t) : result Z :=
  let* ents := iterator h self in
  Ok (Z.of_nat (length ents)).

Definition __filter_by_attr (self : t) (ents : list entity) (attr : string)
    (v : value) : result (list entity) :=
  match _filter_spec (base self) with
  | None =>
      filterM (fun ent => let* a := getattr ent attr in Ok (py_eq a v)) ents
  | Some filter_spec =>
      filterM (fun ent =>
                 let* a := getattr ent attr in
                 if py_eq a v then is_satisfied_by filter_spec ent
                 else Ok false) ents
  end.

(** Lookups return [None] for Python's [None]. *)
Definition get_by_id (h : heap) (self : t) (id_key : value)
  : result (option entity) :=
  let ents := read_list h (_get_entities h self) in
  let* matching_ents := __filter_by_attr self ents "id" id_key in
  match matching_ents with
  | [ent] => Ok (Some ent)
  | [] => Ok None
  | _ => Raise DuplicateException
  end.

Definition get_by_slug (h : heap) (self : t) (slug : value)
  : result (option entity) :=
  let ents := read_list h (_get_entities h self) in
  let* matching_ents := __filter_by_attr self ents "slug" slug in
  match matching_ents with
  | [ent] => Ok (Some ent)
  | [] => Ok None
  | _ => Raise DuplicateException
  end.

Definition __check_existing (h : heap) (self : t) (entity : entity)
  : result bool :=
  let ents := read_list h (_get_entities h self) in
  let* found :=
    filterM (fun ent =>
               let* ent_id := getattr ent "id" in
               let* entity_id := getattr entity "id" in
               if py_eq ent_id entity_id then Ok true
               else
                 let* ent_slug := getattr ent "slug" in
                 let* entity_slug := getattr entity "slug" in
                 Ok (py_eq ent_slug entity_slug)) ents in
  Ok (0 <? Z.of_nat (length found)).

(** [add] mutates the store; it raises before any mutation. *)
Definition add (h : heap) (self : t) (entity : entity) : result heap :=
  if negb (isinstance entity (entity_class (base self))) then Raise ValueError
  else if negb (hasattr entity "id") then Raise ValueError
  else if negb (hasattr entity "slug") then Raise ValueError
  else
    let* entity_id := getattr entity "id" in
    let* entity_slug := getattr entity "slug" in
    let* _ :=
      if negb (py_is_none entity_id) then
        if py_is_none entity_slug then Raise ValueError
        else
          let* existing := __check_existing h self entity in
          if existing then Raise ValueError else Ok tt
      else Ok tt in
    let ents := _get_entities h self in
    Ok (list_append h ents entity).

(** [remove] takes the first stored entity that matches the given one out
    of the list, in place.  The [==] of the entity class, which is not among
    the sources, is the parameter [entity_eq]; [same_object] tells at which
    positions of the list the given object itself is stored. *)
Definition remove (entity_eq : entity -> entity -> bool)
    (same_object : nat -> bool) (h : heap) (self : t) (entity : entity)
  : result heap :=
  let ents := _get_entities h self in
  let* rest := py_list_remove same_object entity_eq entity (read_list h ents) in
  Ok (Heap (<[ents := rest]> (lists h)) (rels h) (next_loc h)).

(** [_set_entities] rebinds the list of the aggregate, or that of its
    relationship, to the given list object. *)
Definition _set_entities (h : heap) (self : t) (entities : loc) : t * heap :=
  match _relationship (base self) with
  | None => (Make (base self) entities, h)
  | Some r => (self, set_children h r entities)
  end.

End MemoryAggregateImpl.

(** ** The relational backend *)

(** A query is the entity class it selects from and the operations
    chained on it.  The SQL visitors are not among the sources; the
    fragment a SQL visitor compiles from a specification is identified
    with that specification. *)
Inductive query_op : Type :=
| QFilter (expr : filter_spec)
| QFilterBy (attr : string) (v : value)
| QOuterJoin (join_expr : string)
| QOrderBy (expr : order_spec)
| QSlice (start stop : option Z).

Record query : Type := Query {
  q_entity_class : string;
  q_ops : list query_op
}.

(** What a session is asked to do, in order. *)
Inductive session_op : Type :=
| SFlush
| SCount (q : query)
| SOne (q : query)
| SIter (q : query).

Definition executes_query (op : session_op) : bool :=
  match op with
  | SFlush => false
  | _ => true
  end.

(** The database behind the session: the rows a query selects, and the
    joins the SQL order visitor asks for. *)
Record backend : Type := Backend {
  rows : query -> list entity;
  get_joins : order_spec -> list string
}.

Module OrmAggregateImpl.

Import AggregateImpl.

Record t : Type := Make {
  base : AggregateImpl.t;
  _session : list session_op;
  _search_mode : bool
}.

Definition __init__ (entity_class : string) (session : list session_op)
    (search_mode : bool) : t :=
  Make (AggregateImpl.__init__ entity_class) session search_mode.

(** The session does one more thing. *)
Definition session_do (self : t) (op : session_op) : t :=
  Make (base self) (_session self ++ [op])%list (_search_mode self).

Definition __defaults_empty (self : t) : bool :=
  bool_decide (_filter_spec (base self) = None) && _search_mode self.

Definition _query_generator (q : query) (key : option value) : query := q.

Definition q_filter (q : query) (expr : filter_spec) : query :=
  Query (q_entity_class q) (q_ops q ++ [QFilter expr])%list.

Definition _get_base_query (h : heap) (self : t) : query :=
  match _relationship (base self) with
  | None => Query (entity_class (base self)) []
  | Some r =>
      let rel_spec := specification (rels h !!! r) in
      q_filter (Query (entity_class (base self)) []) rel_spec
  end.

Definition __get_filtered_query (h : heap) (self : t) (key : option value)
  : query :=
  let q := _query_generator (_get_base_query h self) key in
  match _filter_spec (base self) with
  | None => q
  | Some filter_spec => q_filter q filter_spec
  end.

Definition __get_ordered_query (db : backend) (h : heap) (self : t)
    (key : option value) : query :=
  let q := __get_filtered_query h self key in
  match _order_spec (base self) with
  | None => q
  | Some order_spec =>
      let q := fold_left (fun q join_expr =>
                            Query (q_entity_class q)
                                  (q_ops q ++ [QOuterJoin join_expr])%list)
                         (get_joins db order_spec) q in
      Query (q_entity_class q) (q_ops q ++ [QOrderBy order_spec])%list
  end.

Definition _get_data_query (db : backend) (h : heap) (self : t) : query :=
  let q := __get_ordered_query db h self None in
  match _slice_key (base self) with
  | None => q
  | Some slice_key =>
      Query (q_entity_class q)
            (q_ops q ++ [QSlice (start slice_key) (stop slice_key)])%list
  end.

(** [count] returns the count and the aggregate with its session
    advanced. *)
Definition count (db : backend) (h : heap) (self : t) : Z * t :=
  let self :=
    match _relationship (base self) with
    | None => self
    | Some _ => session_do self SFlush
    end in
  if __defaults_empty self then (0, self)
  else
    let q := __get_filtered_query h self None in
    (Z.of_nat (length (rows db q)), session_do self (SCount q)).

(** [iterator] is a generator; what it yields, in order, with [None]
    for Python's [None], and the aggregate with its session advanced.
    The bare [yield] of the source yields [None]. *)
Definition iterator (db : backend) (h : heap) (self : t)
  : list (option entity) * t :=
  let self :=
    match _relationship (base self) with
    | None => self
    | Some _ => session_do self SFlush
    end in
  if __defaults_empty self then ([None], self)
  else
    let self := session_do self SFlush in
    let q := _get_data_query db h self in
    (map Some (rows db q), session_do self (SIter q)).

(** [query.filter_by(id=id_key).one()] and the two exceptions of
    [one] that [get_by_id] handles. *)
Definition get_by_id (db : backend) (h : heap) (self : t) (id_key : value)
  : result (option entity) * t :=
  let q := __get_filtered_query h self (Some id_key) in
  let q := Query (q_entity_class q) (q_ops q ++ [QFilterBy "id" id_key])%list in
  let self := session_do self (SOne q) in
  match rows db q with
  | [ent] => (Ok (Some ent), self)
  | [] => (Ok None, self)
  | _ => (Raise DuplicateException, self)
  end.

Definition get_by_slug (db : backend) (h : heap) (self : t) (slug : value)
  : result (option entity) * t :=
  let q := __get_filtered_query h self (Some slug) in
  let q := Query (q_entity_class q) (q_ops q ++ [QFilterBy "slug" slug])%list in
  let self := session_do self (SOne q) in
  match rows db q with
  | [ent] => (Ok (Some ent), self)
  | [] => (Ok None, self)
  | _ => (Raise DuplicateException, self)
  end.

(** [create] makes an aggregate on the session [Session()] returns, here
    the parameter [session]; the search mode is left at its default. *)
Definition create (session : list session_op) (entity_class : string) : t :=
  __init__ entity_class session false.

(** [clone], inherited: a created aggregate with the relationship,
    filter, order and slice of this one. *)
Definition clone (session : list session_op) (self : t) : t :=
  let clone := create session (entity_class (base self)) in
  Make (AggregateImpl.clone (base self) (base clone))
       (_session clone) (_search_mode clone).

End OrmAggregateImpl.

(** ** Collections *)

(** The part of a collection resource its filter and order setters use:
    the member class of the collection, the aggregate behind it and the
    specifications as the client gave them (relative to the resource). *)
Module Collection.

Record t : Type := Make {
  member_class : string;
  __aggregate : OrmAggregateImpl.t;
  _filter_spec : option filter_spec;
  _order_spec : option order_spec
}.

Definition set_aggregate_base (agg : OrmAggregateImpl.t)
    (b : AggregateImpl.t) : OrmAggregateImpl.t :=
  OrmAggregateImpl.Make b (OrmAggregateImpl._session agg)
                        (OrmAggregateImpl._search_mode agg).

(** The specification is translated first; the aggregate gets the
    translated one, the collection keeps the original. *)
Definition _set_filter (reg : registry) (self : t) (filter_spec : filter_spec)
  : result t :=
  let* expr := translate reg (member_class self) filter_spec in
  let agg := __aggregate self in
  let agg := set_aggregate_base agg
               (AggregateImpl._set_filter (OrmAggregateImpl.base agg) (Some expr)) in
  Ok (Make (member_class self) agg (Some filter_spec) (_order_spec self)).

Definition _set_order (reg : registry) (self : t) (order_spec : order_spec)
  : result t :=
  let* expr := translate reg (member_class self) order_spec in
  let agg := __aggregate self in
  let agg := set_aggregate_base agg
               (AggregateImpl._set_order (OrmAggregateImpl.base agg) (Some expr)) in
  Ok (Make (member_class self) agg (_filter_spec self) (Some order_spec)).

(** [__getitem__]: the member for the entity with the given slug.
    [as_member], which is not among the sources, makes the member resource
    of an entity in a parent collection; it is the parameter [as_member]. *)
Definition __getitem__ {M : Type} (as_member : entity -> t -> M)
    (db : backend) (h : heap) (self : t) (key : value) : result M * t :=
  let '(ent, agg) := OrmAggregateImpl.get_by_slug db h (__aggregate self) key in
  let self := Make (member_class self) agg (_filter_spec self) (_order_spec self) in
  match ent with
  | Raise e => (Raise e, self)
  | Ok None => (Raise KeyError, self)
  | Ok (Some ent) => (Ok (as_member ent self), self)
  end.

(** [get]: a [KeyError] of [__getitem__] gives the default. *)
Definition get {M : Type} (as_member : entity -> t -> M)
    (db : backend) (h : heap) (self : t) (key : value) (default : M)
  : result M * t :=
  match __getitem__ as_member db h self key with
  | (Raise KeyError, self) => (Ok default, self)
  | r => r
  end.

(** [__len__]: the count of the aggregate. *)
Definition __len__ (db : backend) (h : heap) (self : t) : Z * t :=
  let '(n, agg) := OrmAggregateImpl.count db h (__aggregate self) in
  (n, Make (member_class self) agg (_filter_spec self) (_order_spec self)).

(** [clone]: a collection on a clone of the aggregate, with the filter and
    order specifications of this one. *)
Definition clone (session : list session_op) (self : t) : t :=
  let agg := OrmAggregateImpl.clone session (__aggregate self) in
  Make (member_class self) agg (_filter_spec self) (_order_spec self).

End Collection.

(** ** Representer directives *)

(** The grouping directives for the representers of a resource.  An
    attribute directive collects the options given for one (nested)
    attribute; the resource representer directive around it collects the
    attribute options by attribute key; the resource directive around that
    collects the representers by content type and kind.  [O] is the type of
    a dictionary of options. *)
Section RepresenterDirectives.
Context {O : Type}.

(** [ResourceRepresenterAttributeDirective.after]: the attribute name,
    split at the dots, is the key in the attribute options of the
    context. *)
Definition attribute_directive_after (attribute_options : gmap (list string) O)
    (name : string) (options : O) : gmap (list string) O :=
  let key := split_dot name in
  <[key := options]> attribute_options.

(** [ResourceRepresenterDirective.after]: no attribute options at all are
    recorded as [None]. *)
Definition representer_directive_after
    (representers : gmap (string * option string)
                         (O * option (gmap (list string) O)))
    (content_type : string) (kind : option string) (options : O)
    (attribute_options : gmap (list string) O)
  : gmap (string * option string) (O * option (gmap (list string) O)) :=
  let attribute_options :=
    if bool_decide (size attribute_options = 0%nat) then None
    else Some attribute_options in
  <[(content_type, kind) := (options, attribute_options)]> representers.

(** The attribute directives inside one resource representer directive,
    in their order, each with its name and options. *)
Definition attribute_directives (directives : list (string * O))
  : gmap (list string) O :=
  fold_left (fun attribute_options '(name, options) =>
               attribute_directive_after attribute_options name options)
            directives ∅.

End RepresenterDirectives.

(** ** Repository directives *)

(** What a repository directive does: it registers an action under a
    discriminator and calls a method of the configurator.  Classes and
    other global objects are identified by their names; [None] is an
    argument that was not given. *)
Record repository_call : Type := RepositoryCall {
  discriminator : string * option string;
  config_method : string;
  repository_name : string;
  aggregate_class : option string;
  entity_store_class : option string;
  configuration : gmap string string;
  make_default : bool
}.

(** [_repository]: the action is registered under the name as given; the
    repository that is configured has the repository type for a name when
    none was given. *)
Definition _repository (name : option string) (make_default : bool)
    (agg_cls ent_store_cls : option string) (repo_type config_method : string)
    (cnf : gmap string string) : repository_call :=
  let discriminator := (repo_type, name) in
  let name := match name with
              | None => repo_type
              | Some n => n
              end in
  RepositoryCall discriminator config_method name agg_cls ent_store_cls cnf
                 make_default.

(** The three repository directives.  The constants of [REPOSITORIES],
    which is not among the sources, are the parameters [MEMORY],
    [FILE_SYSTEM] and [ORM]. *)
Definition memory_repository (MEMORY : string) (name : option string)
    (make_default : bool) (aggregate_class entity_store_class : option string)
  : repository_call :=
  _repository name make_default aggregate_class entity_store_class
              MEMORY "add_memory_repository" ∅.

Definition filesystem_repository (FILE_SYSTEM : string) (name : option string)
    (make_default : bool) (aggregate_class entity_store_class : option string)
    (directory content_type : option string) : repository_call :=
  let cnf : gmap string string := ∅ in
  let cnf := match directory with
             | None => cnf
             | Some d => <["directory" := d]> cnf
             end in
  let cnf := match content_type with
             | None => cnf
             | Some c => <["content_type" := c]> cnf
             end in
  _repository name make_default aggregate_class entity_store_class
              FILE_SYSTEM "add_filesystem_repository" cnf.

Definition orm_repository (ORM : string) (name : option string)
    (make_default : bool) (aggregate_class entity_store_class : option string)
    (db_string metadata_factory : option string) : repository_call :=
  let cnf : gmap string string := ∅ in
  let cnf := match db_string with
             | None => cnf
             | Some d => <["db_string" := d]> cnf
             end in
  let cnf := match metadata_factory with
             | None => cnf
             | Some m => <["metadata_factory" := m]> cnf
             end in
  _repository name make_default aggregate_class entity_store_class
              ORM "add_orm_repository" cnf.

(** ** Notions used to state the properties *)

(** The leaves of a tree, from left to right. *)
Fixpoint leaves {L : Type} (s : spec L) : list L :=
  match s with
  | Nullary leaf => [leaf]
  | Unary _ wrapped => leaves wrapped
  | Binary _ left_spec right_spec => (leaves left_spec ++ leaves right_spec)%list
  end.

(** The shape of a tree: its nodes and their classes, the leaves erased. *)
Fixpoint shape {L : Type} (s : spec L) : spec unit :=
  match s with
  | Nullary _ => Nullary tt
  | Unary cls wrapped => Unary cls (shape wrapped)
  | Binary cls left_spec right_spec =>
      Binary cls (shape left_spec) (shape right_spec)
  end.

Section TranslateSpec.
Context (reg : registry).
Context {L : Type} `{!LeafSpec L}.

(** The translation of a tree, computed without a stack. *)
Fixpoint translate_spec (rc_class : string) (s : spec L) : result (spec L) :=
  match s with
  | Nullary leaf =>
      let* name := __convert_to_entity_attr reg rc_class (attr_name leaf) in
      Ok (Nullary (_make_new_spec name leaf))
  | Unary cls wrapped =>
      let* w := translate_spec rc_class wrapped in
      Ok (Unary cls w)
  | Binary cls left_spec right_spec =>
      let* l := translate_spec rc_class left_spec in
      let* r := translate_spec rc_class right_spec in
      Ok (Binary cls l r)
  end.

End TranslateSpec.

(** The resource class that is current after a token with the given
    descriptor: the member class of the value type for a nested member or
    collection, the same class after a terminal attribute. *)
Definition next_class (reg : registry) (rc_class : string)
    (rc_attr : resource_attribute) : string :=
  match kind rc_attr with
  | TERMINAL => rc_class
  | MEMBER | COLLECTION => get_member_class reg (value_type rc_attr)
  end.

(** [resolves reg rc toks ents]: starting at the resource class [rc],
    every token of [toks] is an attribute of the class current at it, and
    [ents] are the entity names of these attributes. *)
Inductive resolves (reg : registry) : string -> list string -> list string -> Prop :=
| resolves_nil rc_class :
    resolves reg rc_class [] []
| resolves_cons rc_class tok rc_attr toks ents :
    get_resource_class_attributes reg rc_class !! tok = Some rc_attr ->
    resolves reg (next_class reg rc_class rc_attr) toks ents ->
    resolves reg rc_class (tok :: toks) (entity_name rc_attr :: ents).

(** The resource class that is current after the tokens [toks], starting
    at [rc_class]. *)
Definition class_after (reg : registry) (rc_class : string)
    (toks : list string) : string :=
  fold_left (fun rc tok =>
               match get_resource_class_attributes reg rc !! tok with
               | Some rc_attr => next_class reg rc rc_attr
               | None => rc
               end) toks rc_class.

(** [unresolved reg rc toks]: the tokens before some token of [toks]
    resolve, and that token is not an attribute of the resource class
    current at it. *)
Definition unresolved (reg : registry) (rc_class : string)
    (toks : list string) : Prop :=
  exists pre tok suf ents,
    toks = (pre ++ tok :: suf)%list /\
    resolves reg rc_class pre ents /\
    get_resource_class_attributes reg (class_after reg rc_class pre) !! tok = None.

(** Whether a call returned. *)
Definition is_ok {A : Type} (r : result A) : bool :=
  match r with
  | Ok _ => true
  | Raise _ => false
  end.

(** The entity has the attribute [attr], with the value [v]. *)
Definition attr_is (attr : string) (v : value) (ent : entity) : bool :=
  bool_decide (ent_attrs ent !! attr = Some v).

(** The entity passes the filter of the aggregate, if it has one. *)
Definition satisfies (filter_spec : option filter_spec) (ent : entity) : bool :=
  match filter_spec with
  | None => true
  | Some fs =>
      match is_satisfied_by fs ent with
      | Ok b => b
      | Raise _ => false
      end
  end.

(** The filter of the aggregate, if it has one, can be evaluated on every
    entity of the list. *)
Definition filter_evaluates (filter_spec : option filter_spec)
    (ents : list entity) : bool :=
  match filter_spec with
  | None => true
  | Some fs => forallb (fun ent => is_ok (is_satisfied_by fs ent)) ents
  end.

(** The entities a point lookup considers: those with the key that pass
    the filter. *)
Definition considered (filter_spec : option filter_spec) (attr : string)
    (v : value) (ents : list entity) : list entity :=
  List.filter (fun ent => attr_is attr v ent && satisfies filter_spec ent) ents.

(** The store with the list at [l] replaced. *)
Definition set_list (h : heap) (l : loc) (ents : list entity) : heap :=
  Heap (<[l := ents]> (lists h)) (rels h) (next_loc h).

(** The entities the aggregate works on. *)
Definition stored (h : heap) (self : MemoryAggregateImpl.t) : list entity :=
  read_list h (MemoryAggregateImpl._get_entities h self).

(** The aggregate without its filter. *)
Definition without_filter (self : MemoryAggregateImpl.t) : MemoryAggregateImpl.t :=
  MemoryAggregateImpl.Make
    (AggregateImpl._set_filter (MemoryAggregateImpl.base self) None)
    (MemoryAggregateImpl.__entities self).

(** The comparator of an order specification, computed without a stack;
    a unary node or a disjunction in an order specification raises. *)
Fixpoint order_cmp (s : order_spec) : result comparator :=
  match s with
  | Nullary leaf => Ok (key_cmp leaf)
  | Unary _ wrapped => let* _ := order_cmp wrapped in Raise TypeError
  | Binary Conjunction left_spec right_spec =>
      let* l := order_cmp left_spec in
      let* r := order_cmp right_spec in
      Ok (then_cmp l r)
  | Binary Disjunction left_spec right_spec =>
      let* _ := order_cmp left_spec in
      let* _ := order_cmp right_spec in
      Raise TypeError
  end.

(** The three stages of an iteration, each skipped when the aggregate
    does not have the respective setting. *)
Definition filter_stage (filter_spec : option filter_spec) (ents : list entity)
  : result (list entity) :=
  match filter_spec with
  | None => Ok ents
  | Some fs => filterM (is_satisfied_by fs) ents
  end.

Definition order_stage (order_spec : option order_spec) (ents : list entity)
  : result (list entity) :=
  match order_spec with
  | None => Ok ents
  | Some os => let* cmp := order_cmp os in sorted cmp ents
  end.

Definition slice_stage (slice_key : option py_slice) (ents : list entity)
  : result (list entity) :=
  match slice_key with
  | None => Ok ents
  | Some key => py_getslice ents key
  end.

(** The aggregate with another slice key. *)
Definition with_slice (self : MemoryAggregateImpl.t) (slice_key : option py_slice)
  : MemoryAggregateImpl.t :=
  MemoryAggregateImpl.Make
    (AggregateImpl._set_slice (MemoryAggregateImpl.base self) slice_key)
    (MemoryAggregateImpl.__entities self).

(** A stored entity has the id or the slug of the entity. *)
Definition same_id_or_slug (entity ent : entity) : bool :=
  bool_decide (ent_attrs ent !! "id" = ent_attrs entity !! "id")
  || bool_decide (ent_attrs ent !! "slug" = ent_attrs entity !! "slug").

(** The entities [add] turns down: those that are not instances of the
    entity class, that lack an [id] or a [slug] attribute, or that have an
    id other than [None] and either [None] for a slug or the id or the slug
    of a stored entity. *)
Definition rejected (entity_class : string) (ents : list entity)
    (entity : entity) : bool :=
  negb (isinstance entity entity_class)
  || negb (hasattr entity "id")
  || negb (hasattr entity "slug")
  || (negb (attr_is "id" VNone entity)
      && (attr_is "slug" VNone entity || existsb (same_id_or_slug entity) ents)).

(** The memory aggregate after [set_relationship]. *)
Definition memory_set_relationship (self : MemoryAggregateImpl.t)
    (relationship : option loc) : MemoryAggregateImpl.t :=
  MemoryAggregateImpl.Make
    (AggregateImpl.set_relationship (MemoryAggregateImpl.base self) relationship)
    (MemoryAggregateImpl.__entities self).

(** An ORM aggregate as its constructor leaves it, scoped by a
    relationship or not. *)
Definition orm_aggregate (entity_class : string) (session : list session_op)
    (search_mode : bool) (relationship : option loc) : OrmAggregateImpl.t :=
  let self := OrmAggregateImpl.__init__ entity_class session search_mode in
  OrmAggregateImpl.Make
    (AggregateImpl.set_relationship (OrmAggregateImpl.base self) relationship)
    (OrmAggregateImpl._session self) (OrmAggregateImpl._search_mode self).

(** The ORM aggregate with another order and slice. *)
Definition orm_with_order_slice (self : OrmAggregateImpl.t)
    (order_spec : option order_spec) (slice_key : option py_slice)
  : OrmAggregateImpl.t :=
  OrmAggregateImpl.Make
    (AggregateImpl._set_slice
       (AggregateImpl._set_order (OrmAggregateImpl.base self) order_spec)
       slice_key)
    (OrmAggregateImpl._session self) (OrmAggregateImpl._search_mode self).

(** The id of the entity, when it has one other than [None]. *)
Definition non_none_id (ent : entity) : option value :=
  match ent_attrs ent !! "id" with
  | Some VNone | None => None
  | Some v => Some v
  end.

(** No two of the entities have the same id other than [None]. *)
Definition unique_ids (ents : list entity) : bool :=
  bool_decide (NoDup (omap non_none_id ents)).

(** Every entity has an [id] and a [slug] attribute. *)
Definition well_formed (ents : list entity) : bool :=
  forallb (fun ent => hasattr ent "id" && hasattr ent "slug") ents.





(** The ORM aggregate with another slice key. *)
Definition orm_with_slice (self : OrmAggregateImpl.t)
    (slice_key : option py_slice) : OrmAggregateImpl.t :=
  OrmAggregateImpl.Make
    (AggregateImpl._set_slice (OrmAggregateImpl.base self) slice_key)
    (OrmAggregateImpl._session self) (OrmAggregateImpl._search_mode self).

(** The memory aggregate with another order and slice. *)
Definition with_order_slice (self : MemoryAggregateImpl.t)
    (order_spec : option order_spec) (slice_key : option py_slice)
  : MemoryAggregateImpl.t :=
  MemoryAggregateImpl.Make
    (AggregateImpl._set_slice
       (AggregateImpl._set_order (MemoryAggregateImpl.base self) order_spec)
       slice_key)
    (MemoryAggregateImpl.__entities self).

(** Every token of the path names an attribute of the class current at
    it whose entity name is the token itself. *)
Fixpoint identity_path (reg : registry) (rc_class : string)
    (toks : list string) : bool :=
  match toks with
  | [] => true
  | tok :: toks' =>
      match get_resource_class_attributes reg rc_class !! tok with
      | None => false
      | Some rc_attr =>
          String.eqb (entity_name rc_attr) tok
          && identity_path reg (next_class reg rc_class rc_attr) toks'
      end
  end.

(** The options of the last of the directives with the given name. *)
Definition last_options {O : Type} (name : string)
    (directives : list (string * O)) : option O :=
  snd <$> last (List.filter (fun d => String.eqb (fst d) name) directives).

(** The query of a lookup by slug. *)
Definition slug_query (h : heap) (agg : OrmAggregateImpl.t) (key : value) : query :=
  let q := OrmAggregateImpl.__get_filtered_query h agg (Some key) in
  Query (q_entity_class q) (q_ops q ++ [QFilterBy "slug" key])%list.

(** The specification the aggregate has is the translation of the one the
    collection has. *)
Definition translated_to {L : Type} `{!LeafSpec L} (reg : registry)
    (rc_class : string) (rc_spec ent_spec : option (spec L)) : Prop :=
  match rc_spec with
  | None => True
  | Some s =>
      match ent_spec with
      | None => False
      | Some e => translate reg rc_class s = Ok e
      end
  end.


(** Two repository directives make the same call to the configurator. *)
Definition same_call (c1 c2 : repository_call) : Prop :=
  config_method c1 = config_method c2 /\
  repository_name c1 = repository_name c2 /\
  aggregate_class c1 = aggregate_class c2 /\
  entity_store_class c1 = entity_store_class c2 /\
  configuration c1 = configuration c2 /\
  make_default c1 = make_default c2.

(** What a point lookup makes of the entities it considers: [None] for
    none, the entity for one, the duplicate error for more. *)
Definition lookup_among (ents : list entity) : result (option entity) :=
  match ents with
  | [] => Ok None
  | [ent] => Ok (Some ent)
  | _ :: _ :: _ => Raise DuplicateException
  end.

(** The order of the aggregate, if it has one, can compare any two
    entities of the list. *)
Definition order_evaluates (order_spec : option order_spec)
    (ents : list entity) : bool :=
  match order_spec with
  | None => true
  | Some os =>
      match order_cmp os with
      | Ok cmp =>
          forallb (fun a => forallb (fun b => is_ok (cmp a b)) ents) ents
      | Raise _ => false
      end
  end.

(** ** Example data *)

(** A registry with two resource classes: persons, with a terminal [name]
    and a nested [address], and addresses, with a terminal [city]. *)
Definition person_attributes : gmap string resource_attribute :=
  <["name" := ResourceAttribute TERMINAL "fullname" "str"]>
  (<["address" := ResourceAttribute MEMBER "home" "IAddress"]> ∅).

Definition address_attributes : gmap string resource_attribute :=
  <["city" := ResourceAttribute TERMINAL "town" "str"]> ∅.

Definition example_registry : registry := {|
  get_resource_class_attributes rc :=
    if String.eqb rc "PersonMember" then person_attributes
    else if String.eqb rc "AddressMember" then address_attributes
    else ∅;
  get_member_class iface :=
    if String.eqb iface "IAddress" then "AddressMember" else iface
|}.

Definition example_filter : filter_spec :=
  Binary Conjunction
    (Nullary (FilterLeaf ValueEqualTo "address.city" [VStr "Oslo"]))
    (Unary Negation (Nullary (FilterLeaf ValueStartsWith "name" [VStr "A"]))).

Definition example_filter_translated : filter_spec :=
  Binary Conjunction
    (Nullary (FilterLeaf ValueEqualTo "home.town" [VStr "Oslo"]))
    (Unary Negation (Nullary (FilterLeaf ValueStartsWith "fullname" [VStr "A"]))).

(** Persons, with an [id] and a [slug]. *)
Definition person (id slug : value) : entity :=
  Entity ["Person"] (<["id" := id]> (<["slug" := slug]> ∅)).

Definition ann : entity := person (VInt 1) (VStr "ann").
Definition bob : entity := person (VInt 2) (VStr "bob").
Definition bea : entity := person (VInt 1) (VStr "bea").
Definition cid : entity := person (VInt 3) (VStr "cid").
Definition dan : entity := person (VInt 4) (VStr "dan").
Definition eve : entity := person (VInt 5) (VStr "eve").

(** Persons whose slug starts with [b]. *)
Definition slug_starts_with_b : filter_spec :=
  Nullary (FilterLeaf ValueStartsWith "slug" [VStr "b"]).

(** A store with one list, at location 0. *)
Definition store_of (ents : list entity) : heap :=
  Heap (<[0%nat := ents]> ∅) ∅ 1%nat.

(** A memory aggregate of persons on the list at location 0. *)
Definition persons (filter_spec : option filter_spec)
    (order_spec : option order_spec) (slice_key : option py_slice)
  : MemoryAggregateImpl.t :=
  MemoryAggregateImpl.Make
    (AggregateImpl.Make None "Person" filter_spec order_spec slice_key) 0%nat.

Definition fay : entity := person (VInt 6) (VStr "fay").
Definition gus : entity := person (VInt 7) (VStr "gus").

Definition id_less_than_7 : filter_spec :=
  Nullary (FilterLeaf ValueLessThan "id" [VInt 7]).

Definition by_id : order_spec := Nullary (OrderLeaf Ascending "id").

(** A database that has three persons for every query. *)
Definition example_backend : backend := {|
  rows q := [ann; bob; cid];
  get_joins os := []
|}.

(** The first of three: the slice [0, 1). *)
Definition first_only : py_slice := Slice (Some 0) (Some 1) None.

(** A memory aggregate scoped by a relationship, a clone of it, and an
    [add] through the clone: the original is created, the list of the
    children of the parent (with [bob] in it) and the relationship are
    set up, the original is scoped, cloned, and [ann] is added to the
    clone.  The result is the original, the clone and the store after the
    [add]. *)
Definition scoped_clone_scenario
  : result (MemoryAggregateImpl.t * MemoryAggregateImpl.t * heap) :=
  let '(original, h) := MemoryAggregateImpl.create "Person" empty_heap in
  let '(kids, h) := new_list h in
  let h := list_append h kids bob in
  let '(rel, h) := new_relationship (Relationship kids slug_starts_with_b) h in
  let original := memory_set_relationship original (Some rel) in
  let '(clone, h) := MemoryAggregateImpl.clone original h in
  let* h := MemoryAggregateImpl.add h clone ann in
  Ok (original, clone, h).

(** An entity that has no id yet. *)
Definition blank : entity := person VNone (VStr "blank").

(** A store with two lists, and memory aggregates of persons on them. *)
Definition two_lists (ents0 ents1 : list entity) : heap :=
  Heap (<[0%nat := ents0]> (<[1%nat := ents1]> ∅)) ∅ 2%nat.

Definition persons_at (l : loc) : MemoryAggregateImpl.t :=
  MemoryAggregateImpl.Make (AggregateImpl.Make None "Person" None None None) l.

(** Entities compared by their class and attributes. *)
Definition same_entity (a b : entity) : bool := bool_decide (a = b).

Definition example_order : order_spec :=
  Binary Conjunction
    (Nullary (OrderLeaf Descending "address.city"))
    (Nullary (OrderLeaf Ascending "name")).

Definition example_order_translated : order_spec :=
  Binary Conjunction
    (Nullary (OrderLeaf Descending "home.town"))
    (Nullary (OrderLeaf Ascending "fullname")).

(** A registry in which the entity names are the resource names. *)
Definition plain_registry : registry := {|
  get_resource_class_attributes rc :=
    if String.eqb rc "PersonMember"
    then <["name" := ResourceAttribute TERMINAL "name" "str"]>
           (<["address" := ResourceAttribute MEMBER "address" "IAddress"]> ∅)
    else if String.eqb rc "AddressMember"
    then <["city" := ResourceAttribute TERMINAL "city" "str"]> ∅
    else ∅;
  get_member_class iface :=
    if String.eqb iface "IAddress" then "AddressMember" else iface
|}.


(** A person whose id and slug are both [None]. *)
Definition nobody : entity := person VNone VNone.

Definition boo : entity := person (VInt 8) (VStr "boo").

(** * Properties *)

(** ** The visitor framework *)

Section StackVisitor.
Context {L E : Type}.
Variable nullary_op : L -> E.
Variable unary_op : unary_class -> E -> E.
Variable binary_op : binary_class -> E -> E -> E.

Lemma accept_stack_visitor (s : spec L) (stack : list E) :
  accept (Visitor0 := stack_visitor nullary_op unary_op binary_op) s stack
  = Ok (fold_spec nullary_op unary_op binary_op s :: stack).
Proof.
  revert stack. induction s as [leaf | cls w IH | cls l IHl r IHr]; intros stack.
  - reflexivity.
  - simpl. rewrite IH. reflexivity.
  - simpl. rewrite IHl. simpl. rewrite IHr. reflexivity.
Qed.

End StackVisitor.

Section Translation.
Context (reg : registry).
Context {L : Type} `{!LeafSpec L}.

Lemma accept_translator (rc_class : string) (s : spec L) (stack : list (spec L)) :
  accept (Visitor0 := ResourceToEntitySpecificationVisitor reg rc_class) s stack
  = let* s' := translate_spec reg rc_class s in Ok (s' :: stack).
Proof.
  revert stack. induction s as [leaf | cls w IH | cls l IHl r IHr]; intros stack.
  - simpl. unfold rte_visit_nullary.
    destruct (__convert_to_entity_attr reg rc_class (attr_name leaf)); reflexivity.
  - simpl. rewrite IH. destruct (translate_spec reg rc_class w); reflexivity.
  - simpl. rewrite IHl. destruct (translate_spec reg rc_class l); [|reflexivity].
    simpl. rewrite IHr. destruct (translate_spec reg rc_class r); reflexivity.
Qed.

Lemma translate_translate_spec (rc_class : string) (s : spec L) :
  translate reg rc_class s = translate_spec reg rc_class s.
Proof.
  unfold translate. rewrite accept_translator.
  destruct (translate_spec reg rc_class s); reflexivity.
Qed.

End Translation.

(** ** Attribute paths *)

Section ConvertLoop.
Context (reg : registry).

Lemma step_class_next_class (rc_class : string) (rc_attr : resource_attribute) :
  (if bool_decide (kind rc_attr ≠ TERMINAL)
   then get_member_class reg (value_type rc_attr)
   else rc_class) = next_class reg rc_class rc_attr.
Proof. unfold next_class. destruct (kind rc_attr); reflexivity. Qed.

Lemma resolves_functional rc toks ents1 ents2 :
  resolves reg rc toks ents1 -> resolves reg rc toks ents2 -> ents1 = ents2.
Proof.
  intros H1. revert ents2. induction H1 as [rc | rc tok a toks ents Ha _ IH];
    intros ents2 H2; inversion H2; subst.
  - reflexivity.
  - assert (a = rc_attr) by congruence. subst. f_equal. apply IH. assumption.
Qed.

Lemma convert_loop_ok toks : forall rc acc out,
  convert_loop reg toks rc acc = Ok out <->
  exists ents, resolves reg rc toks ents /\ out = (acc ++ ents)%list.
Proof.
  induction toks as [| tok toks IH]; intros rc acc out; simpl.
  - split.
    + intros [= <-]. exists []. split; [constructor | by rewrite app_nil_r].
    + intros (ents & Hr & ->). inversion Hr; subst. by rewrite app_nil_r.
  - destruct (get_resource_class_attributes reg rc !! tok) as [a |] eqn:Ha.
    + rewrite step_class_next_class, IH. split.
      * intros (ents & Hr & ->). exists (entity_name a :: ents). split.
        -- by econstructor.
        -- by rewrite <- app_assoc.
      * intros (ents & Hr & ->). inversion Hr; subst.
        assert (a = rc_attr) by congruence. subst.
        eexists. split; [eassumption |]. by rewrite <- app_assoc.
    + split; [discriminate |].
      intros (ents & Hr & _). inversion Hr; congruence.
Qed.

Lemma class_after_cons rc tok a toks :
  get_resource_class_attributes reg rc !! tok = Some a ->
  class_after reg rc (tok :: toks) = class_after reg (next_class reg rc a) toks.
Proof. intros Ha. unfold class_after. simpl. by rewrite Ha. Qed.

Lemma convert_loop_raise toks : forall rc acc e,
  convert_loop reg toks rc acc = Raise e <->
  e = KeyError /\ unresolved reg rc toks.
Proof.
  induction toks as [| tok toks IH]; intros rc acc e; simpl.
  - split; [discriminate |].
    intros (_ & pre & t & suf & ents & Heq & _). by destruct pre.
  - destruct (get_resource_class_attributes reg rc !! tok) as [a |] eqn:Ha.
    + rewrite step_class_next_class, IH. split.
      * intros (-> & pre & t & suf & ents & -> & Hr & Hn). split; [done |].
        exists (tok :: pre), t, suf, (entity_name a :: ents).
        split; [done |]. split; [by econstructor |].
        by rewrite (class_after_cons _ _ a).
      * intros (-> & pre & t & suf & ents & Heq & Hr & Hn). split; [done |].
        destruct pre as [| p pre]; simpl in Heq.
        -- injection Heq as <- <-. unfold class_after in Hn. simpl in Hn. congruence.
        -- injection Heq as <- ->. inversion Hr; subst.
           assert (a = rc_attr) by congruence. subst.
           rewrite (class_after_cons _ _ rc_attr) in Hn by done.
           by exists pre, t, suf, ents0.
    + split.
      * intros [= <-]. split; [done |].
        exists [], tok, toks, []. split; [done |]. split; [constructor | done].
      * intros (-> & _). done.
Qed.

Lemma convert_ok rc name out :
  __convert_to_entity_attr reg rc name = Ok out <->
  exists ents, resolves reg rc (split_dot name) ents /\ out = join_dot ents.
Proof.
  unfold __convert_to_entity_attr.
  destruct (convert_loop reg (split_dot name) rc []) as [toks | e] eqn:Hc; simpl.
  - apply convert_loop_ok in Hc as (ents & Hr & ->). simpl. split.
    + intros [= <-]. eauto.
    + intros (ents' & Hr' & ->). by rewrite (resolves_functional _ _ _ _ Hr Hr').
  - split; [discriminate |]. intros (ents & Hr & _).
    assert (convert_loop reg (split_dot name) rc [] = Ok ([] ++ ents)%list) as Hok
      by (apply convert_loop_ok; eauto).
    congruence.
Qed.

Lemma convert_raise rc name e :
  __convert_to_entity_attr reg rc name = Raise e <->
  e = KeyError /\ unresolved reg rc (split_dot name).
Proof.
  unfold __convert_to_entity_attr.
  destruct (convert_loop reg (split_dot name) rc []) as [toks | e'] eqn:Hc; simpl.
  - split; [discriminate |]. intros Hu.
    apply (convert_loop_raise _ rc []) in Hu. congruence.
  - apply convert_loop_raise in Hc as Hc'. destruct Hc' as [-> Hu]. split.
    + intros [= <-]. done.
    + intros [-> _]. done.
Qed.

End ConvertLoop.

(** ** Translation of specifications *)

Section TranslationProperties.
Context (reg : registry).
Context {L : Type} `{!LeafSpec L}.

Lemma translate_spec_raise (rc : string) (s : spec L) (e : exn) :
  translate_spec reg rc s = Raise e <->
  e = KeyError /\
  exists leaf, In leaf (leaves s) /\ unresolved reg rc (split_dot (attr_name leaf)).
Proof.
  revert e. induction s as [leaf | cls w IH | cls l IHl r IHr]; intros e; simpl.
  - destruct (__convert_to_entity_attr reg rc (attr_name leaf)) as [n | e'] eqn:Hc;
      simpl.
    + split; [discriminate |]. intros (-> & leaf' & [<- | []] & Hu).
      assert (__convert_to_entity_attr reg rc (attr_name leaf) = Raise KeyError)
        by (apply convert_raise; done).
      congruence.
    + apply convert_raise in Hc as [-> Hu]. split.
      * intros [= <-]. split; [done |]. exists leaf. split; [by left | done].
      * intros [-> _]. done.
  - destruct (translate_spec reg rc w) as [w' | e'] eqn:Hw; simpl.
    + split; [discriminate |]. intros H. apply IH in H. discriminate.
    + rewrite <- IH. split; congruence.
  - destruct (translate_spec reg rc l) as [l' | e'] eqn:Hl; simpl.
    + destruct (translate_spec reg rc r) as [r' | e''] eqn:Hr; simpl.
      * split; [discriminate |]. intros (-> & leaf & Hin & Hu).
        apply in_app_or in Hin as [Hin | Hin].
        -- assert (Ok l' = Raise KeyError) by (apply IHl; eauto). discriminate.
        -- assert (Ok r' = Raise KeyError) by (apply IHr; eauto). discriminate.
      * destruct (proj1 (IHr e'') eq_refl) as (-> & leaf & Hin & Hu). split.
        -- intros [= <-]. split; [done |].
           exists leaf. split; [apply in_or_app; by right | done].
        -- intros (-> & _). done.
    + destruct (proj1 (IHl e') eq_refl) as (-> & leaf & Hin & Hu). split.
      * intros [= <-]. split; [done |].
        exists leaf. split; [apply in_or_app; by left | done].
      * intros (-> & _). done.
Qed.

Lemma translate_spec_ok (rc : string) (s s' : spec L) :
  translate_spec reg rc s = Ok s' ->
  shape s' = shape s /\
  Forall2 (fun leaf leaf' =>
             exists name,
               __convert_to_entity_attr reg rc (attr_name leaf) = Ok name /\
               leaf' = _make_new_spec name leaf)
          (leaves s) (leaves s').
Proof.
  revert s'. induction s as [leaf | cls w IH | cls l IHl r IHr]; intros s'; simpl.
  - destruct (__convert_to_entity_attr reg rc (attr_name leaf)) as [n | e] eqn:Hc;
      simpl; [| discriminate].
    intros [= <-]. simpl. split; [done |]. constructor; [| constructor]. eauto.
  - destruct (translate_spec reg rc w) as [w' | e]; simpl; [| discriminate].
    intros [= <-]. destruct (IH w' eq_refl) as [Hs Hl]. simpl. by rewrite Hs.
  - destruct (translate_spec reg rc l) as [l' | e]; simpl; [| discriminate].
    destruct (translate_spec reg rc r) as [r' | e]; simpl; [| discriminate].
    intros [= <-]. destruct (IHl l' eq_refl) as [Hsl Hll].
    destruct (IHr r' eq_refl) as [Hsr Hlr]. simpl. rewrite Hsl, Hsr.
    split; [done |]. by apply Forall2_app.
Qed.

End TranslationProperties.

Example split_dot_examples :
  split_dot "address.city" = ["address"; "city"] /\
  split_dot "name" = ["name"] /\
  split_dot "" = [""] /\
  split_dot "a..b." = ["a"; ""; "b"; ""] /\
  join_dot ["home"; "town"] = "home.town".
Proof. repeat split; reflexivity. Qed.

Example translate_example :
  translate example_registry "PersonMember" example_filter
  = Ok example_filter_translated.
Proof. vm_compute. reflexivity. Qed.

Example translate_example_raise :
  translate example_registry "PersonMember"
    (Nullary (FilterLeaf ValueEqualTo "name.city" [VStr "Oslo"]))
  = Raise KeyError.
Proof. vm_compute. reflexivity. Qed.

(** C8.  A traversal under the stack discipline (a nullary visit pushes
    one value, a unary visit pops one and pushes one, a binary visit pops
    two, the right one first, and pushes one; children are visited before
    their parent) leaves exactly one value on the stack of the visitor, and
    that value is its expression.  The traversal of the resource-to-entity
    visitor of the sources leaves exactly one value too whenever it
    returns, and raises nothing but the [KeyError] of a path that does not
    resolve: no pop ever finds the stack empty. *)
Theorem visitor_traversal_leaves_one_value
    {L E : Type} (nullary_op : L -> E) (unary_op : unary_class -> E -> E)
    (binary_op : binary_class -> E -> E -> E) (s : spec L)
    (reg : registry) (rc_class : string) (t : filter_spec) :
  (exists v,
     accept (Visitor0 := stack_visitor nullary_op unary_op binary_op) s []
     = Ok [v] /\
     expression [v] = Ok v /\
     v = fold_spec nullary_op unary_op binary_op s) /\
  match accept (Visitor0 := ResourceToEntitySpecificationVisitor reg rc_class) t [] with
  | Ok stack => exists v, stack = [v] /\ translate reg rc_class t = Ok v
  | Raise e => e = KeyError
  end.
Proof.
  split.
  - eexists. rewrite accept_stack_visitor. done.
  - unfold translate. rewrite accept_translator.
    destruct (translate_spec reg rc_class t) as [t' | e] eqn:Ht; simpl.
    + eauto.
    + by apply translate_spec_raise in Ht as [-> _].
Qed.

(** C7.  When the translation of a filter specification succeeds, the
    translated tree has the shape of the input, with the same class (and
    so the same operator) at every node; every leaf keeps its class and
    its comparison values, and its new attribute name is the ['.']-join of
    the entity names found by resolving the tokens of the old name one by
    one through the resource attribute metadata. *)
Theorem translation_preserves_structure (reg : registry) (rc_class : string)
    (s s' : filter_spec) :
  translate reg rc_class s = Ok s' ->
  shape s' = shape s /\
  Forall2 (fun leaf leaf' =>
             f_class leaf' = f_class leaf /\
             f_attr_value leaf' = f_attr_value leaf /\
             exists ents,
               resolves reg rc_class (split_dot (f_attr_name leaf)) ents /\
               f_attr_name leaf' = join_dot ents)
          (leaves s) (leaves s').
Proof.
  rewrite translate_translate_spec. intros H.
  apply translate_spec_ok in H as [Hs Hl]. split; [done |].
  eapply Forall2_impl; [exact Hl |].
  intros leaf leaf' (name & Hc & ->). simpl.
  apply convert_ok in Hc as (ents & Hr & ->). eauto.
Qed.

Lemma translation_preserves_structure_witness :
  shape example_filter_translated = shape example_filter /\
  Forall2 (fun leaf leaf' =>
             f_class leaf' = f_class leaf /\
             f_attr_value leaf' = f_attr_value leaf /\
             exists ents,
               resolves example_registry "PersonMember"
                        (split_dot (f_attr_name leaf)) ents /\
               f_attr_name leaf' = join_dot ents)
          (leaves example_filter) (leaves example_filter_translated).
Proof.
  apply (translation_preserves_structure example_registry "PersonMember"
           example_filter example_filter_translated).
  vm_compute. reflexivity.
Defined.



(** ** Point lookups in memory aggregates *)

Lemma filterM_pure {A : Type} (p : A -> result bool) (q : A -> bool) (l : list A) :
  (forall x, In x l -> p x = Ok (q x)) ->
  filterM p l = Ok (List.filter q l).
Proof.
  induction l as [| x l IH]; intros H; simpl; [done |].
  rewrite (H x) by (by left). simpl.
  rewrite IH by (intros y Hy; apply H; by right). simpl.
  by destruct (q x).
Qed.

Lemma getattr_attr_is (ent : entity) (attr : string) (v : value) :
  hasattr ent attr = true ->
  exists a, getattr ent attr = Ok a /\ py_eq a v = attr_is attr v ent.
Proof.
  unfold hasattr, getattr, attr_is, py_eq. intros H.
  apply bool_decide_eq_true in H as [a Ha]. rewrite Ha. exists a. split; [done |].
  apply bool_decide_ext. split; congruence.
Qed.

Lemma filter_by_attr_considered (self : MemoryAggregateImpl.t)
    (ents : list entity) (attr : string) (v : value) :
  let fs := AggregateImpl._filter_spec (MemoryAggregateImpl.base self) in
  forallb (fun ent => hasattr ent attr) ents = true ->
  filter_evaluates fs ents = true ->
  MemoryAggregateImpl.__filter_by_attr self ents attr v
  = Ok (considered fs attr v ents).
Proof.
  intros fs Hattr Hfs. unfold MemoryAggregateImpl.__filter_by_attr, considered.
  fold fs. rewrite forallb_forall in Hattr.
  destruct fs as [f |]; simpl in *.
  - rewrite forallb_forall in Hfs. apply filterM_pure. intros ent Hin.
    destruct (getattr_attr_is ent attr v (Hattr ent Hin)) as (a & Ha & Hb).
    rewrite Ha. simpl. rewrite Hb.
    specialize (Hfs ent Hin). destruct (is_satisfied_by f ent); [| discriminate].
    by destruct (attr_is attr v ent).
  - apply filterM_pure. intros ent Hin.
    destruct (getattr_attr_is ent attr v (Hattr ent Hin)) as (a & Ha & Hb).
    rewrite Ha. simpl. rewrite Hb. by rewrite andb_true_r.
Qed.

Lemma considered_filter_satisfies (fs : option filter_spec) (attr : string)
    (v : value) (ents : list entity) :
  considered None attr v (List.filter (satisfies fs) ents)
  = considered fs attr v ents.
Proof.
  unfold considered. induction ents as [| ent ents IH]; [done |].
  cbn [List.filter]. destruct (satisfies fs ent) eqn:Hs.
  - cbn [List.filter]. rewrite IH. cbn [satisfies]. by rewrite !andb_true_r.
  - rewrite IH. by rewrite andb_false_r.
Qed.

Lemma filter_satisfies_none (ents : list entity) :
  List.filter (satisfies None) ents = ents.
Proof. induction ents as [| ent ents IH]; simpl; [done | by f_equal]. Qed.

Lemma forallb_filter {A : Type} (p q : A -> bool) (l : list A) :
  forallb p l = true -> forallb p (List.filter q l) = true.
Proof.
  rewrite !forallb_forall. intros H x Hx. apply H.
  apply filter_In in Hx. tauto.
Qed.

Lemma stored_set_list_without_filter (h : heap) (self : MemoryAggregateImpl.t)
    (ents : list entity) :
  stored (set_list h (MemoryAggregateImpl._get_entities h self) ents)
         (without_filter self) = ents.
Proof.
  unfold stored, read_list, set_list, MemoryAggregateImpl._get_entities. simpl.
  by rewrite lookup_total_insert_eq.
Qed.

Lemma get_by_id_considered (h : heap) (self : MemoryAggregateImpl.t) (key : value) :
  forallb (fun ent => hasattr ent "id") (stored h self) = true ->
  filter_evaluates (AggregateImpl._filter_spec (MemoryAggregateImpl.base self))
                   (stored h self) = true ->
  MemoryAggregateImpl.get_by_id h self key
  = match considered (AggregateImpl._filter_spec (MemoryAggregateImpl.base self))
                     "id" key (stored h self) with
    | [] => Ok None
    | [ent] => Ok (Some ent)
    | _ :: _ :: _ => Raise DuplicateException
    end.
Proof.
  intros Ha Hf. unfold MemoryAggregateImpl.get_by_id. fold (stored h self).
  rewrite filter_by_attr_considered by done. simpl.
  by destruct (considered _ _ _ _) as [| ? [| ? ?]].
Qed.

Lemma get_by_slug_considered (h : heap) (self : MemoryAggregateImpl.t) (key : value) :
  forallb (fun ent => hasattr ent "slug") (stored h self) = true ->
  filter_evaluates (AggregateImpl._filter_spec (MemoryAggregateImpl.base self))
                   (stored h self) = true ->
  MemoryAggregateImpl.get_by_slug h self key
  = match considered (AggregateImpl._filter_spec (MemoryAggregateImpl.base self))
                     "slug" key (stored h self) with
    | [] => Ok None
    | [ent] => Ok (Some ent)
    | _ :: _ :: _ => Raise DuplicateException
    end.
Proof.
  intros Ha Hf. unfold MemoryAggregateImpl.get_by_slug. fold (stored h self).
  rewrite filter_by_attr_considered by done. simpl.
  by destruct (considered _ _ _ _) as [| ? [| ? ?]].
Qed.

Lemma filter_by_attr_matching (self : MemoryAggregateImpl.t)
    (ents : list entity) (attr : string) (v : value) :
  let fs := AggregateImpl._filter_spec (MemoryAggregateImpl.base self) in
  forallb (fun ent => hasattr ent attr) ents = true ->
  filter_evaluates fs (List.filter (attr_is attr v) ents) = true ->
  MemoryAggregateImpl.__filter_by_attr self ents attr v
  = Ok (considered fs attr v ents).
Proof.
  intros fs Hattr Hfs. unfold MemoryAggregateImpl.__filter_by_attr, considered.
  fold fs. rewrite forallb_forall in Hattr.
  destruct fs as [f |]; simpl in *.
  - rewrite forallb_forall in Hfs. apply filterM_pure. intros ent Hin.
    destruct (getattr_attr_is ent attr v (Hattr ent Hin)) as (a & Ha & Hb).
    rewrite Ha. simpl. rewrite Hb.
    destruct (attr_is attr v ent) eqn:Hm; [| done].
    assert (In ent (List.filter (attr_is attr v) ents)) as Hin'
      by (apply filter_In; done).
    specialize (Hfs ent Hin').
    by destruct (is_satisfied_by f ent); [| discriminate].
  - apply filterM_pure. intros ent Hin.
    destruct (getattr_attr_is ent attr v (Hattr ent Hin)) as (a & Ha & Hb).
    rewrite Ha. simpl. rewrite Hb. by rewrite andb_true_r.
Qed.

Lemma get_by_id_matching (h : heap) (self : MemoryAggregateImpl.t) (key : value) :
  forallb (fun ent => hasattr ent "id") (stored h self) = true ->
  filter_evaluates (AggregateImpl._filter_spec (MemoryAggregateImpl.base self))
                   (List.filter (attr_is "id" key) (stored h self)) = true ->
  MemoryAggregateImpl.get_by_id h self key
  = lookup_among
      (considered (AggregateImpl._filter_spec (MemoryAggregateImpl.base self))
                  "id" key (stored h self)).
Proof.
  intros Ha Hf. unfold MemoryAggregateImpl.get_by_id. fold (stored h self).
  rewrite filter_by_attr_matching by done. simpl.
  by destruct (considered _ _ _ _) as [| ? [| ? ?]].
Qed.

Lemma get_by_slug_matching (h : heap) (self : MemoryAggregateImpl.t) (key : value) :
  forallb (fun ent => hasattr ent "slug") (stored h self) = true ->
  filter_evaluates (AggregateImpl._filter_spec (MemoryAggregateImpl.base self))
                   (List.filter (attr_is "slug" key) (stored h self)) = true ->
  MemoryAggregateImpl.get_by_slug h self key
  = lookup_among
      (considered (AggregateImpl._filter_spec (MemoryAggregateImpl.base self))
                  "slug" key (stored h self)).
Proof.
  intros Ha Hf. unfold MemoryAggregateImpl.get_by_slug. fold (stored h self).
  rewrite filter_by_attr_matching by done. simpl.
  by destruct (considered _ _ _ _) as [| ? [| ? ?]].
Qed.

Lemma has_id_and_slug (ents : list entity) :
  forallb (fun ent => hasattr ent "id" && hasattr ent "slug") ents = true ->
  forallb (fun ent => hasattr ent "id") ents = true /\
  forallb (fun ent => hasattr ent "slug") ents = true.
Proof.
  rewrite !forallb_forall. intros H.
  split; intros ent Hin; specialize (H ent Hin);
    apply andb_true_iff in H; tauto.
Qed.

Lemma filterM_raises {A : Type} (p : A -> result bool) (l : list A) :
  forallb (fun x => is_ok (p x)) l = false ->
  exists x e, In x l /\ p x = Raise e /\ filterM p l = Raise e.
Proof.
  induction l as [| y l IH]; simpl; [discriminate |].
  destruct (p y) as [b | e] eqn:Hy; simpl.
  - intros H. destruct (IH H) as (x & e & Hin & Hx & Hr).
    exists x, e. rewrite Hr. simpl. auto.
  - intros _. exists y, e. auto.
Qed.

Lemma is_satisfied_by_no_duplicate (fs : filter_spec) (ent : entity) :
  is_satisfied_by fs ent <> Raise DuplicateException.
Proof.
  induction fs as [leaf | cls w IH | cls l IHl r IHr]; simpl.
  - unfold leaf_test, getattr.
    destruct (ent_attrs ent !! f_attr_name leaf) as [v |]; simpl; [| discriminate].
    unfold value_test. repeat case_match; discriminate.
  - destruct cls. unfold not_op.
    destruct (is_satisfied_by w ent) as [b | e]; simpl; [discriminate | exact IH].
  - destruct cls; unfold binary_op, and_op, or_op;
      destruct (is_satisfied_by l ent) as [[|] | e]; simpl;
      try discriminate; try exact IHl; exact IHr.
Qed.

Lemma filter_by_attr_raises (self : MemoryAggregateImpl.t)
    (ents : list entity) (attr : string) (v : value) :
  let fs := AggregateImpl._filter_spec (MemoryAggregateImpl.base self) in
  forallb (fun ent => hasattr ent attr) ents
  && filter_evaluates fs (List.filter (attr_is attr v) ents) = false ->
  exists e, MemoryAggregateImpl.__filter_by_attr self ents attr v = Raise e /\
            e <> DuplicateException.
Proof.
  intros fs Hc. unfold MemoryAggregateImpl.__filter_by_attr. fold fs.
  assert (forall ent a, getattr ent attr = Ok a -> hasattr ent attr = true)
    as Hget.
  { intros ent a. unfold getattr, hasattr.
    destruct (ent_attrs ent !! attr) as [x |]; [| discriminate].
    intros _. by apply bool_decide_eq_true_2. }
  assert (forall ent, attr_is attr v ent = true -> getattr ent attr = Ok v)
    as Hattr.
  { intros ent Hm. unfold attr_is in Hm. apply bool_decide_eq_true in Hm.
    unfold getattr. by rewrite Hm. }
  destruct fs as [f |]; simpl in Hc.
  - set (p := fun ent => let* a := getattr ent attr in
                         if py_eq a v then is_satisfied_by f ent else Ok false).
    destruct (forallb (fun ent => is_ok (p ent)) ents) eqn:Hall.
    + exfalso. rewrite forallb_forall in Hall.
      apply andb_false_iff in Hc as [Hc | Hc].
      * assert (forallb (fun ent => hasattr ent attr) ents = true) as Ht.
        { apply forallb_forall. intros ent Hin. specialize (Hall ent Hin).
          unfold p in Hall. destruct (getattr ent attr) as [a | e] eqn:Ha;
            [by eapply Hget | discriminate]. }
        congruence.
      * assert (forallb (fun ent => is_ok (is_satisfied_by f ent))
                        (List.filter (attr_is attr v) ents) = true) as Ht.
        { apply forallb_forall. intros ent Hin. apply filter_In in Hin as [Hin Hm].
          specialize (Hall ent Hin). unfold p in Hall.
          rewrite (Hattr ent Hm) in Hall. simpl in Hall.
          unfold py_eq in Hall. by rewrite bool_decide_eq_true_2 in Hall. }
        congruence.
    + apply filterM_raises in Hall as (x & e & Hin & Hx & Hr).
      exists e. split; [exact Hr |]. unfold p in Hx.
      destruct (getattr x attr) as [a | e'] eqn:Ha; simpl in Hx.
      * destruct (py_eq a v); [| discriminate].
        intros ->. by apply (is_satisfied_by_no_duplicate f x).
      * unfold getattr in Ha. destruct (ent_attrs x !! attr); [discriminate |].
        injection Ha as <-. injection Hx as <-. discriminate.
  - rewrite andb_true_r in Hc.
    set (p := fun ent => let* a := getattr ent attr in Ok (py_eq a v)).
    destruct (forallb (fun ent => is_ok (p ent)) ents) eqn:Hall.
    + exfalso. rewrite forallb_forall in Hall.
      assert (forallb (fun ent => hasattr ent attr) ents = true) as Ht.
      { apply forallb_forall. intros ent Hin. specialize (Hall ent Hin).
        unfold p in Hall. destruct (getattr ent attr) as [a | e] eqn:Ha;
          [by eapply Hget | discriminate]. }
      congruence.
    + apply filterM_raises in Hall as (x & e & Hin & Hx & Hr).
      exists e. split; [exact Hr |]. unfold p in Hx.
      destruct (getattr x attr) as [a | e'] eqn:Ha; simpl in Hx; [discriminate |].
      unfold getattr in Ha. destruct (ent_attrs x !! attr); [discriminate |].
      injection Ha as <-. injection Hx as <-. discriminate.
Qed.

Lemma get_by_id_raises (h : heap) (self : MemoryAggregateImpl.t) (key : value) :
  forallb (fun ent => hasattr ent "id") (stored h self)
  && filter_evaluates (AggregateImpl._filter_spec (MemoryAggregateImpl.base self))
                      (List.filter (attr_is "id" key) (stored h self)) = false ->
  exists e, MemoryAggregateImpl.get_by_id h self key = Raise e /\
            e <> DuplicateException.
Proof.
  intros Hc. apply filter_by_attr_raises in Hc as (e & He & Hne).
  exists e. split; [| done].
  unfold MemoryAggregateImpl.get_by_id. fold (stored h self). by rewrite He.
Qed.

Lemma get_by_slug_raises (h : heap) (self : MemoryAggregateImpl.t) (key : value) :
  forallb (fun ent => hasattr ent "slug") (stored h self)
  && filter_evaluates (AggregateImpl._filter_spec (MemoryAggregateImpl.base self))
                      (List.filter (attr_is "slug" key) (stored h self)) = false ->
  exists e, MemoryAggregateImpl.get_by_slug h self key = Raise e /\
            e <> DuplicateException.
Proof.
  intros Hc. apply filter_by_attr_raises in Hc as (e & He & Hne).
  exists e. split; [| done].
  unfold MemoryAggregateImpl.get_by_slug. fold (stored h self). by rewrite He.
Qed.

Lemma lookup_among_some (ents : list entity) (ent : entity) :
  lookup_among ents = Ok (Some ent) -> ents = [ent].
Proof. destruct ents as [| x [| y l]]; simpl; congruence. Qed.

Lemma lookup_among_duplicate (ents : list entity) :
  lookup_among ents = Raise DuplicateException -> (2 <= length ents)%nat.
Proof. destruct ents as [| x [| y l]]; simpl; try discriminate. lia. Qed.

Lemma considered_kept (fs : option filter_spec) (attr : string) (v : value)
    (ents : list entity) :
  considered fs attr v ents
  = List.filter (attr_is attr v) (List.filter (satisfies fs) ents).
Proof.
  rewrite <- considered_filter_satisfies. unfold considered. apply filter_ext.
  intros ent. simpl. by rewrite andb_true_r.
Qed.

(** C1, as the code has it.  When every stored entity of a memory
    aggregate has an [id] and the filter specification of the aggregate
    (if it has one) can be evaluated on the stored entities that have the
    given id, [get_by_id] decides by the stored entities that have the
    given id and satisfy the filter (all stored entities with that id when
    no filter is set): it raises the duplicate error when there is more
    than one, returns [None] when there is none, and returns the entity
    when there is exactly one.  Otherwise, when a stored entity has no [id]
    or the filter cannot be evaluated on a stored entity with the given id,
    it raises an error other than the duplicate error.  The filter is not
    asked about stored entities with another id.  [get_by_slug] does the
    same with slugs. *)
Theorem point_lookup_trichotomy (h : heap) (self : MemoryAggregateImpl.t)
    (id_key slug : value) :
  let fs := AggregateImpl._filter_spec (MemoryAggregateImpl.base self) in
  (if forallb (fun ent => hasattr ent "id") (stored h self)
      && filter_evaluates fs (List.filter (attr_is "id" id_key) (stored h self))
   then
     MemoryAggregateImpl.get_by_id h self id_key
     = match considered fs "id" id_key (stored h self) with
       | [] => Ok None
       | [ent] => Ok (Some ent)
       | _ :: _ :: _ => Raise DuplicateException
       end
   else
     exists e, MemoryAggregateImpl.get_by_id h self id_key = Raise e /\
               e <> DuplicateException) /\
  (if forallb (fun ent => hasattr ent "slug") (stored h self)
      && filter_evaluates fs (List.filter (attr_is "slug" slug) (stored h self))
   then
     MemoryAggregateImpl.get_by_slug h self slug
     = match considered fs "slug" slug (stored h self) with
       | [] => Ok None
       | [ent] => Ok (Some ent)
       | _ :: _ :: _ => Raise DuplicateException
       end
   else
     exists e, MemoryAggregateImpl.get_by_slug h self slug = Raise e /\
               e <> DuplicateException).
Proof.
  intros fs. split.
  - destruct (forallb _ _ && _) eqn:Hc.
    + apply andb_true_iff in Hc as [Ha Hf]. by apply get_by_id_matching.
    + by apply get_by_id_raises.
  - destruct (forallb _ _ && _) eqn:Hc.
    + apply andb_true_iff in Hc as [Ha Hf]. by apply get_by_slug_matching.
    + by apply get_by_slug_raises.
Qed.

Lemma point_lookup_trichotomy_witness :
  let h := store_of [nobody; ann; bob; bea] in
  let self := persons (Some slug_starts_with_b) None None in
  filter_evaluates (Some slug_starts_with_b) (stored h self) = false /\
  MemoryAggregateImpl.get_by_id h self (VInt 1) = Ok (Some bea) /\
  MemoryAggregateImpl.get_by_slug h self (VStr "bob") = Ok (Some bob) /\
  MemoryAggregateImpl.get_by_id h self VNone = Raise AttributeError /\
  (exists e, MemoryAggregateImpl.get_by_id h self VNone = Raise e /\
             e <> DuplicateException).
Proof.
  intros h self.
  pose proof (point_lookup_trichotomy h self (VInt 1) (VStr "bob")) as H.
  pose proof (point_lookup_trichotomy h self VNone (VStr "bob")) as H'.
  cbv zeta in H, H'. destruct H as [H1 H2]. destruct H' as [H3 _].
  match type of H1 with
  | if ?c then _ else _ => replace c with true in H1 by (vm_compute; reflexivity)
  end.
  match type of H2 with
  | if ?c then _ else _ => replace c with true in H2 by (vm_compute; reflexivity)
  end.
  match type of H3 with
  | if ?c then _ else _ => replace c with false in H3 by (vm_compute; reflexivity)
  end.
  split; [vm_compute; reflexivity |].
  split; [rewrite H1; vm_compute; reflexivity |].
  split; [rewrite H2; vm_compute; reflexivity |].
  split; [vm_compute; reflexivity | exact H3].
Defined.

(** C1, as stated, fails on an aggregate with a filter: [ann] is the only
    stored entity with id 1 and is not returned, and of the two stored
    entities with id 1 the one that passes the filter is returned, with no
    duplicate error.  And when the filter cannot be evaluated on the one
    stored entity with the given id, here [None], the lookup raises the
    error of the filter. *)
Lemma lookup_ignores_entities_outside_filter :
  stored (store_of [ann; bob]) (persons (Some slug_starts_with_b) None None)
  = [ann; bob] /\
  getattr ann "id" = Ok (VInt 1) /\
  getattr bob "id" = Ok (VInt 2) /\
  MemoryAggregateImpl.get_by_id (store_of [ann; bob])
    (persons (Some slug_starts_with_b) None None) (VInt 1) = Ok None /\
  getattr bea "id" = Ok (VInt 1) /\
  MemoryAggregateImpl.get_by_id (store_of [ann; bob; bea])
    (persons (Some slug_starts_with_b) None None) (VInt 1) = Ok (Some bea) /\
  getattr nobody "id" = Ok VNone /\
  MemoryAggregateImpl.add (store_of []) (persons None None None) nobody
  = Ok (store_of [nobody]) /\
  MemoryAggregateImpl.add (store_of [nobody]) (persons None None None) bob
  = Ok (store_of [nobody; bob]) /\
  MemoryAggregateImpl.get_by_id (store_of [nobody; bob])
    (persons (Some slug_starts_with_b) None None) VNone = Raise AttributeError.
Proof. vm_compute. done. Qed.

Lemma get_by_id_among (h : heap) (self : MemoryAggregateImpl.t) (key : value) :
  let fs := AggregateImpl._filter_spec (MemoryAggregateImpl.base self) in
  if forallb (fun ent => hasattr ent "id") (stored h self)
     && filter_evaluates fs (List.filter (attr_is "id" key) (stored h self))
  then MemoryAggregateImpl.get_by_id h self key
       = lookup_among (List.filter (attr_is "id" key)
                                   (List.filter (satisfies fs) (stored h self)))
  else exists e, MemoryAggregateImpl.get_by_id h self key = Raise e /\
                 e <> DuplicateException.
Proof.
  intros fs. destruct (forallb _ _ && _) eqn:Hc.
  - apply andb_true_iff in Hc as [Ha Hf].
    rewrite get_by_id_matching by done. fold fs. by rewrite considered_kept.
  - by apply get_by_id_raises.
Qed.

Lemma get_by_slug_among (h : heap) (self : MemoryAggregateImpl.t) (key : value) :
  let fs := AggregateImpl._filter_spec (MemoryAggregateImpl.base self) in
  if forallb (fun ent => hasattr ent "slug") (stored h self)
     && filter_evaluates fs (List.filter (attr_is "slug" key) (stored h self))
  then MemoryAggregateImpl.get_by_slug h self key
       = lookup_among (List.filter (attr_is "slug" key)
                                   (List.filter (satisfies fs) (stored h self)))
  else exists e, MemoryAggregateImpl.get_by_slug h self key = Raise e /\
                 e <> DuplicateException.
Proof.
  intros fs. destruct (forallb _ _ && _) eqn:Hc.
  - apply andb_true_iff in Hc as [Ha Hf].
    rewrite get_by_slug_matching by done. fold fs. by rewrite considered_kept.
  - by apply get_by_slug_raises.
Qed.

(** C10.  A point lookup on a memory aggregate considers only the stored
    entities that satisfy the filter specification of the aggregate: an
    entity that has the key and does not satisfy the filter is never
    returned, and the duplicate error is raised only when two or more of
    the stored entities that satisfy the filter have the key.  In detail,
    when every stored entity has an [id] and the filter can be evaluated
    on the stored entities that have the given id, [get_by_id] decides
    among the stored entities that satisfy the filter and have the id,
    [None] for none, the entity for one, the duplicate error for more,
    which is what the lookup gives on the aggregate without its filter
    after the entities that do not satisfy the filter are taken out of the
    backing list; otherwise it raises an error other than the duplicate
    error.  Without a filter the lookup decides among all stored entities
    that have the key.  [get_by_slug] does the same with slugs. *)
Theorem point_lookup_respects_filter (h : heap) (self : MemoryAggregateImpl.t)
    (id_key slug : value) :
  let fs := AggregateImpl._filter_spec (MemoryAggregateImpl.base self) in
  let kept := List.filter (satisfies fs) (stored h self) in
  let h' := set_list h (MemoryAggregateImpl._get_entities h self) kept in
  (forall ent,
     MemoryAggregateImpl.get_by_id h self id_key = Ok (Some ent) ->
     In ent (stored h self) /\ attr_is "id" id_key ent = true /\
     satisfies fs ent = true) /\
  (MemoryAggregateImpl.get_by_id h self id_key = Raise DuplicateException ->
   (2 <= length (List.filter (attr_is "id" id_key) kept))%nat) /\
  (forall ent,
     MemoryAggregateImpl.get_by_slug h self slug = Ok (Some ent) ->
     In ent (stored h self) /\ attr_is "slug" slug ent = true /\
     satisfies fs ent = true) /\
  (MemoryAggregateImpl.get_by_slug h self slug = Raise DuplicateException ->
   (2 <= length (List.filter (attr_is "slug" slug) kept))%nat) /\
  (if forallb (fun ent => hasattr ent "id") (stored h self)
      && filter_evaluates fs (List.filter (attr_is "id" id_key) (stored h self))
   then
     MemoryAggregateImpl.get_by_id h self id_key
     = lookup_among (List.filter (attr_is "id" id_key) kept) /\
     MemoryAggregateImpl.get_by_id h self id_key
     = MemoryAggregateImpl.get_by_id h' (without_filter self) id_key
   else
     exists e, MemoryAggregateImpl.get_by_id h self id_key = Raise e /\
               e <> DuplicateException) /\
  (if forallb (fun ent => hasattr ent "slug") (stored h self)
      && filter_evaluates fs (List.filter (attr_is "slug" slug) (stored h self))
   then
     MemoryAggregateImpl.get_by_slug h self slug
     = lookup_among (List.filter (attr_is "slug" slug) kept) /\
     MemoryAggregateImpl.get_by_slug h self slug
     = MemoryAggregateImpl.get_by_slug h' (without_filter self) slug
   else
     exists e, MemoryAggregateImpl.get_by_slug h self slug = Raise e /\
               e <> DuplicateException) /\
  (if forallb (fun ent => hasattr ent "id") (stored h self)
   then
     MemoryAggregateImpl.get_by_id h (without_filter self) id_key
     = lookup_among (List.filter (attr_is "id" id_key) (stored h self))
   else
     exists e, MemoryAggregateImpl.get_by_id h (without_filter self) id_key
               = Raise e /\ e <> DuplicateException) /\
  (if forallb (fun ent => hasattr ent "slug") (stored h self)
   then
     MemoryAggregateImpl.get_by_slug h (without_filter self) slug
     = lookup_among (List.filter (attr_is "slug" slug) (stored h self))
   else
     exists e, MemoryAggregateImpl.get_by_slug h (without_filter self) slug
               = Raise e /\ e <> DuplicateException).
Proof.
  intros fs kept h'.
  assert (stored h (without_filter self) = stored h self) as Hw by reflexivity.
  assert (forall attr v ents,
            considered None attr v ents = List.filter (attr_is attr v) ents)
    as Hnone.
  { intros attr v ents. unfold considered. apply filter_ext.
    intros ent. simpl. by rewrite andb_true_r. }
  assert (forall attr v ent,
            In ent (List.filter (attr_is attr v) kept) ->
            In ent (stored h self) /\ attr_is attr v ent = true /\
            satisfies fs ent = true) as Hin.
  { intros attr v ent H. apply filter_In in H as [H Hm].
    apply filter_In in H as [H Hs]. done. }
  pose proof (get_by_id_among h self id_key) as Hid.
  pose proof (get_by_slug_among h self slug) as Hslug.
  cbv zeta in Hid, Hslug. fold fs in Hid, Hslug. fold kept in Hid, Hslug.
  remember (forallb (fun ent => hasattr ent "id") (stored h self)
            && filter_evaluates fs
                 (List.filter (attr_is "id" id_key) (stored h self)))
    as cid eqn:Hcid in *.
  remember (forallb (fun ent => hasattr ent "slug") (stored h self)
            && filter_evaluates fs
                 (List.filter (attr_is "slug" slug) (stored h self)))
    as cslug eqn:Hcslug in *.
  symmetry in Hcid, Hcslug.
  split; [| split; [| split; [| split; [| split; [| split; [| split]]]]]].
  - intros ent Hr. destruct cid.
    + rewrite Hid in Hr. apply lookup_among_some in Hr.
      apply (Hin "id" id_key). rewrite Hr. by left.
    + destruct Hid as (e & He & _). congruence.
  - intros Hr. destruct cid.
    + rewrite Hid in Hr. by apply lookup_among_duplicate.
    + destruct Hid as (e & He & Hne). congruence.
  - intros ent Hr. destruct cslug.
    + rewrite Hslug in Hr. apply lookup_among_some in Hr.
      apply (Hin "slug" slug). rewrite Hr. by left.
    + destruct Hslug as (e & He & _). congruence.
  - intros Hr. destruct cslug.
    + rewrite Hslug in Hr. by apply lookup_among_duplicate.
    + destruct Hslug as (e & He & Hne). congruence.
  - destruct cid; [| exact Hid].
    split; [exact Hid |]. apply andb_true_iff in Hcid as [Ha Hf].
    rewrite get_by_id_matching by done. fold fs.
    rewrite get_by_id_matching.
    + unfold h', kept. rewrite stored_set_list_without_filter. simpl.
      by rewrite considered_filter_satisfies.
    + unfold h', kept. rewrite stored_set_list_without_filter. by apply forallb_filter.
    + done.
  - destruct cslug; [| exact Hslug].
    split; [exact Hslug |]. apply andb_true_iff in Hcslug as [Ha Hf].
    rewrite get_by_slug_matching by done. fold fs.
    rewrite get_by_slug_matching.
    + unfold h', kept. rewrite stored_set_list_without_filter. simpl.
      by rewrite considered_filter_satisfies.
    + unfold h', kept. rewrite stored_set_list_without_filter. by apply forallb_filter.
    + done.
  - destruct (forallb (fun ent => hasattr ent "id") (stored h self)) eqn:Ha.
    + rewrite get_by_id_matching; rewrite ?Hw; [| done | done].
      simpl. by rewrite Hnone.
    + apply get_by_id_raises. rewrite Hw, Ha. done.
  - destruct (forallb (fun ent => hasattr ent "slug") (stored h self)) eqn:Ha.
    + rewrite get_by_slug_matching; rewrite ?Hw; [| done | done].
      simpl. by rewrite Hnone.
    + apply get_by_slug_raises. rewrite Hw, Ha. done.
Qed.

Lemma point_lookup_respects_filter_witness :
  let h := store_of [nobody; ann; bob; bea] in
  let self := persons (Some slug_starts_with_b) None None in
  let h' := set_list h 0%nat (List.filter (satisfies (Some slug_starts_with_b))
                                          (stored h self)) in
  filter_evaluates (Some slug_starts_with_b) (stored h self) = false /\
  MemoryAggregateImpl.get_by_id h self (VInt 1) = Ok (Some bea) /\
  MemoryAggregateImpl.get_by_slug h self (VStr "ann") = Ok None /\
  MemoryAggregateImpl.get_by_id h (without_filter self) (VInt 1)
  = Raise DuplicateException /\
  MemoryAggregateImpl.get_by_slug h (without_filter self) (VStr "ann")
  = Ok (Some ann) /\
  stored h' (without_filter self) = [bob; bea] /\
  MemoryAggregateImpl.get_by_id h self (VInt 1)
  = MemoryAggregateImpl.get_by_id h' (without_filter self) (VInt 1) /\
  MemoryAggregateImpl.get_by_slug h self (VStr "ann")
  = MemoryAggregateImpl.get_by_slug h' (without_filter self) (VStr "ann") /\
  satisfies (Some slug_starts_with_b) bea = true.
Proof.
  intros h self h'.
  pose proof (point_lookup_respects_filter h self (VInt 1) (VStr "ann")) as H.
  cbv zeta in H. destruct H as (Hret & _ & _ & _ & H1 & H2 & H3 & H4).
  match type of H1 with
  | if ?c then _ else _ => replace c with true in H1 by (vm_compute; reflexivity)
  end.
  match type of H2 with
  | if ?c then _ else _ => replace c with true in H2 by (vm_compute; reflexivity)
  end.
  match type of H3 with
  | if ?c then _ else _ => replace c with true in H3 by (vm_compute; reflexivity)
  end.
  match type of H4 with
  | if ?c then _ else _ => replace c with true in H4 by (vm_compute; reflexivity)
  end.
  destruct H1 as [H1 H1']. destruct H2 as [H2 H2'].
  assert (MemoryAggregateImpl.get_by_id h self (VInt 1) = Ok (Some bea)) as Hbea
    by (rewrite H1; vm_compute; reflexivity).
  split; [vm_compute; reflexivity |].
  split; [exact Hbea |].
  split; [rewrite H2; vm_compute; reflexivity |].
  split; [rewrite H3; vm_compute; reflexivity |].
  split; [rewrite H4; vm_compute; reflexivity |].
  split; [vm_compute; reflexivity |].
  split; [exact H1' |]. split; [exact H2' |].
  exact (proj2 (proj2 (Hret bea Hbea))).
Defined.

(** ** Iteration over memory aggregates *)

Lemma fold_spec_is_satisfied_by (fs : filter_spec) :
  fold_spec leaf_test (fun _ => not_op) binary_op fs = is_satisfied_by fs.
Proof.
  induction fs as [leaf | cls w IH | cls l IHl r IHr]; simpl.
  - done.
  - destruct cls. by rewrite IH.
  - by rewrite IHl, IHr.
Qed.

Lemma accept_order_visitor (os : order_spec) (stack : list comparator) :
  accept (Visitor0 := OrderSpecificationEvalVisitor) os stack
  = let* cmp := order_cmp os in Ok (cmp :: stack).
Proof.
  revert stack. induction os as [leaf | cls w IH | cls l IHl r IHr]; intros stack.
  - done.
  - simpl. rewrite IH. by destruct (order_cmp w).
  - simpl. rewrite IHl. destruct (order_cmp l) as [cl | e]; simpl.
    + rewrite IHr. destruct (order_cmp r) as [cr | e]; simpl.
      * by destruct cls.
      * by destruct cls.
    + by destruct cls.
Qed.

Lemma iterator_stages (h : heap) (self : MemoryAggregateImpl.t) :
  MemoryAggregateImpl.iterator h self
  = let* filtered :=
      filter_stage (AggregateImpl._filter_spec (MemoryAggregateImpl.base self))
                   (stored h self) in
    let* ordered :=
      order_stage (AggregateImpl._order_spec (MemoryAggregateImpl.base self))
                  filtered in
    slice_stage (AggregateImpl._slice_key (MemoryAggregateImpl.base self)) ordered.
Proof.
  unfold MemoryAggregateImpl.iterator, filter_stage, order_stage, slice_stage.
  fold (stored h self).
  destruct (AggregateImpl._filter_spec (MemoryAggregateImpl.base self)) as [fs |].
  - unfold FilterSpecificationEvalVisitor. rewrite accept_stack_visitor.
    rewrite fold_spec_is_satisfied_by. simpl.
    destruct (filterM (is_satisfied_by fs) (stored h self)) as [filtered | e];
      simpl; [| done].
    destruct (AggregateImpl._order_spec (MemoryAggregateImpl.base self)) as [os |].
    + rewrite accept_order_visitor.
      destruct (order_cmp os) as [cmp | e]; simpl; [| done].
      destruct (sorted cmp filtered) as [ordered | e]; simpl; [| done].
      destruct (AggregateImpl._slice_key (MemoryAggregateImpl.base self)); simpl;
        [| done].
      by destruct (py_getslice ordered _).
    + simpl.
      destruct (AggregateImpl._slice_key (MemoryAggregateImpl.base self)); simpl;
        [| done].
      by destruct (py_getslice filtered _).
  - simpl.
    destruct (AggregateImpl._order_spec (MemoryAggregateImpl.base self)) as [os |].
    + rewrite accept_order_visitor.
      destruct (order_cmp os) as [cmp | e]; simpl; [| done].
      destruct (sorted cmp (stored h self)) as [ordered | e]; simpl; [| done].
      destruct (AggregateImpl._slice_key (MemoryAggregateImpl.base self)); simpl;
        [| done].
      by destruct (py_getslice ordered _).
    + simpl.
      destruct (AggregateImpl._slice_key (MemoryAggregateImpl.base self)); simpl;
        [| done].
      by destruct (py_getslice (stored h self) _).
Qed.

Example py_getslice_examples :
  py_getslice [10; 11; 12; 13; 14] (Slice (Some 2) (Some 5) None)
  = Ok [12; 13; 14] /\
  py_getslice [10; 11; 12] (Slice (Some 2) (Some 5) None) = Ok [12] /\
  py_getslice [10; 11; 12; 13; 14] (Slice (Some (-2)) None None)
  = Ok [13; 14] /\
  py_getslice [10; 11; 12; 13; 14] (Slice None None (Some (-2)))
  = Ok [14; 12; 10] /\
  py_getslice [10; 11; 12; 13; 14] (Slice (Some 1) None (Some 0))
  = Raise ValueError.
Proof. repeat split; reflexivity. Qed.

Lemma insert_sorted_permutation (cmp : comparator) (x : entity)
    (l l' : list entity) :
  insert_sorted cmp x l = Ok l' -> Permutation (x :: l) l'.
Proof.
  revert l'. induction l as [| y l IH]; intros l'; simpl.
  - by intros [= <-].
  - destruct (cmp x y) as [[| |] | e]; simpl; try discriminate;
      try (by intros [= <-]).
    destruct (insert_sorted cmp x l) as [rest | e]; simpl; [| discriminate].
    intros [= <-]. rewrite perm_swap. constructor. by apply IH.
Qed.

(** Sorting keeps the entities: the sorted list is a rearrangement of the
    given one. *)
Lemma sorted_permutation (cmp : comparator) (l l' : list entity) :
  sorted cmp l = Ok l' -> Permutation l l'.
Proof.
  revert l'. induction l as [| x l IH]; intros l'; simpl.
  - by intros [= <-].
  - destruct (sorted cmp l) as [rest | e]; simpl; [| discriminate].
    intros H. apply insert_sorted_permutation in H.
    rewrite <- H. constructor. by apply IH.
Qed.

Lemma omap_lookup_range {A : Type} (l : list A) (s n : nat) :
  (s + n <= length l)%nat ->
  omap (fun i : nat => l !! Z.to_nat (Z.of_nat s + Z.of_nat i * 1)) (seq 0 n)
  = take n (drop s l).
Proof.
  induction n as [| n IH]; intros Hlen.
  - by rewrite take_0.
  - rewrite seq_S, omap_app, IH by lia. simpl.
    replace (Z.to_nat (Z.of_nat s + Z.of_nat n * 1)) with (s + n)%nat by lia.
    destruct (lookup_lt_is_Some_2 l (s + n)%nat) as [x Hx]; [lia |].
    rewrite Hx. simpl. symmetry. apply take_S_r. by rewrite lookup_drop.
Qed.

(** A slice with non-negative bounds and no step is the half-open index
    range between the bounds. *)
Lemma py_getslice_range {A : Type} (l : list A) (a b : nat) :
  py_getslice l (Slice (Some (Z.of_nat a)) (Some (Z.of_nat b)) None)
  = Ok (take (b - a) (drop a l)).
Proof.
  unfold py_getslice, slice_indices, slice_length. simpl.
  set (len := Z.of_nat (length l)).
  destruct (Z.ltb_spec (Z.of_nat a) 0) as [? | _]; [lia |].
  destruct (Z.ltb_spec (Z.of_nat b) 0) as [? | _]; [lia |].
  destruct (Z.ltb_spec (Z.min (Z.of_nat a) len) (Z.min (Z.of_nat b) len)) as [Hlt | Hge].
  - f_equal.
    replace (Z.min (Z.of_nat a) len) with (Z.of_nat a) by lia.
    replace (Z.to_nat ((Z.min (Z.of_nat b) len - Z.of_nat a - 1) / 1 + 1))
      with (Nat.min b (length l) - a)%nat by (rewrite Z.div_1_r; lia).
    rewrite omap_lookup_range by lia.
    destruct (Nat.le_gt_cases b (length l)) as [Hb | Hb].
    + by rewrite Nat.min_l by lia.
    + rewrite Nat.min_r by lia. rewrite !take_ge; [done | |];
        rewrite length_drop; lia.
  - f_equal. simpl.
    destruct (Nat.le_gt_cases b a) as [Hb | Hb].
    + replace (b - a)%nat with 0%nat by lia. by rewrite take_0.
    + rewrite drop_ge by lia. by destruct (b - a)%nat.
Qed.

Lemma iterator_with_slice (h : heap) (self : MemoryAggregateImpl.t)
    (unsliced : list entity) (slice_key : py_slice) :
  MemoryAggregateImpl.iterator h (with_slice self None) = Ok unsliced ->
  MemoryAggregateImpl.iterator h (with_slice self (Some slice_key))
  = py_getslice unsliced slice_key.
Proof.
  rewrite !iterator_stages. unfold with_slice, stored. simpl.
  destruct (filter_stage _ _) as [filtered | e]; simpl; [| discriminate].
  destruct (order_stage _ _) as [ordered | e]; simpl; [| discriminate].
  by intros [= ->].
Qed.

Lemma take_3_drop_2 {A : Type} (l : list A) :
  take 3 (drop 2 l) = omap (fun i : nat => l !! i) [2; 3; 4]%nat.
Proof. by destruct l as [| x0 [| x1 [| x2 [| x3 [| x4 l]]]]]. Qed.

(** C3.  The iterator of a memory aggregate applies the compiled filter to
    the whole backing list, sorts what the filter left by the compiled
    order, and applies the slice last.  A slice with the bounds [a] and [b]
    is the half-open index range from [a] to [b] of the unsliced result;
    with the slice [2, 5) the iterator yields the items at the positions 2,
    3 and 4 of the unsliced result, in that order. *)
Theorem iterator_filters_sorts_then_slices (h : heap)
    (self : MemoryAggregateImpl.t) (unsliced : list entity) (a b : nat) :
  MemoryAggregateImpl.iterator h (with_slice self None) = Ok unsliced ->
  MemoryAggregateImpl.iterator h self
  = (let* filtered :=
       filter_stage (AggregateImpl._filter_spec (MemoryAggregateImpl.base self))
                    (stored h self) in
     let* ordered :=
       order_stage (AggregateImpl._order_spec (MemoryAggregateImpl.base self))
                   filtered in
     slice_stage (AggregateImpl._slice_key (MemoryAggregateImpl.base self)) ordered) /\
  MemoryAggregateImpl.iterator h
    (with_slice self (Some (Slice (Some (Z.of_nat a)) (Some (Z.of_nat b)) None)))
  = Ok (take (b - a) (drop a unsliced)) /\
  MemoryAggregateImpl.iterator h
    (with_slice self (Some (Slice (Some 2) (Some 5) None)))
  = Ok (omap (fun i : nat => unsliced !! i) [2; 3; 4]%nat).
Proof.
  intros Hu. split; [apply iterator_stages |]. split.
  - rewrite (iterator_with_slice h self unsliced) by done.
    apply py_getslice_range.
  - rewrite (iterator_with_slice h self unsliced) by done.
    rewrite <- take_3_drop_2. apply (py_getslice_range unsliced 2 5).
Qed.

Lemma iterator_filters_sorts_then_slices_witness :
  let h := store_of [gus; eve; dan; fay; cid; bob; ann] in
  let self := persons (Some id_less_than_7) (Some by_id) None in
  MemoryAggregateImpl.iterator h (with_slice self None)
  = Ok [ann; bob; cid; dan; eve; fay] /\
  MemoryAggregateImpl.iterator h
    (with_slice self (Some (Slice (Some 2) (Some 5) None)))
  = Ok [cid; dan; eve].
Proof.
  intros h self. split; [vm_compute; reflexivity |].
  destruct (iterator_filters_sorts_then_slices h self
              [ann; bob; cid; dan; eve; fay] 2 5) as (_ & _ & H);
    [vm_compute; reflexivity |].
  exact H.
Defined.

(** ** Adding to memory aggregates *)

Lemma hasattr_getattr (ent : entity) (attr : string) :
  hasattr ent attr = true ->
  exists a, ent_attrs ent !! attr = Some a /\ getattr ent attr = Ok a.
Proof.
  unfold hasattr, getattr. intros H.
  apply bool_decide_eq_true in H as [a Ha]. rewrite Ha. eauto.
Qed.

Lemma length_filter_existsb {A : Type} (q : A -> bool) (l : list A) :
  (0 <? Z.of_nat (length (List.filter q l))) = existsb q l.
Proof.
  induction l as [| x l IH]; simpl; [done |].
  destruct (q x); simpl; [| done].
  apply Z.ltb_lt. lia.
Qed.

Lemma check_existing_same_id_or_slug (h : heap) (self : MemoryAggregateImpl.t)
    (entity : entity) :
  forallb (fun ent => hasattr ent "id" && hasattr ent "slug") (stored h self) = true ->
  hasattr entity "id" = true ->
  hasattr entity "slug" = true ->
  MemoryAggregateImpl.__check_existing h self entity
  = Ok (existsb (same_id_or_slug entity) (stored h self)).
Proof.
  intros Hs Hid Hslug. unfold MemoryAggregateImpl.__check_existing.
  fold (stored h self). rewrite forallb_forall in Hs.
  destruct (hasattr_getattr _ _ Hid) as (i & Hi & Hgi).
  destruct (hasattr_getattr _ _ Hslug) as (sl & Hsl & Hgsl).
  rewrite (filterM_pure _ (same_id_or_slug entity)).
  - simpl. by rewrite length_filter_existsb.
  - intros ent Hin. specialize (Hs ent Hin). apply andb_true_iff in Hs as [H1 H2].
    destruct (hasattr_getattr _ _ H1) as (i' & Hi' & Hgi').
    destruct (hasattr_getattr _ _ H2) as (sl' & Hsl' & Hgsl').
    rewrite Hgi', Hgi. simpl. unfold same_id_or_slug, py_eq.
    rewrite Hi, Hi', Hsl, Hsl'.
    destruct (decide (i' = i)) as [-> | Hne].
    + by rewrite !bool_decide_eq_true_2 by done.
    + rewrite (bool_decide_eq_false_2 (i' = i)) by done.
      rewrite (bool_decide_eq_false_2 (Some i' = Some i)) by congruence.
      rewrite Hgsl', Hgsl. simpl. f_equal. apply bool_decide_ext.
      split; congruence.
Qed.

Lemma stored_list_append (h : heap) (self : MemoryAggregateImpl.t) (entity : entity) :
  stored (list_append h (MemoryAggregateImpl._get_entities h self) entity) self
  = (stored h self ++ [entity])%list.
Proof.
  unfold stored, read_list, list_append, MemoryAggregateImpl._get_entities. simpl.
  by rewrite lookup_total_insert_eq.
Qed.

Lemma add_rejected (h : heap) (self : MemoryAggregateImpl.t) (entity : entity) :
  forallb (fun ent => hasattr ent "id" && hasattr ent "slug") (stored h self) = true ->
  MemoryAggregateImpl.add h self entity
  = if rejected (AggregateImpl.entity_class (MemoryAggregateImpl.base self))
                (stored h self) entity
    then Raise ValueError
    else Ok (list_append h (MemoryAggregateImpl._get_entities h self) entity).
Proof.
  intros Hs. unfold MemoryAggregateImpl.add, rejected.
  destruct (isinstance entity _); simpl; [| done].
  destruct (hasattr entity "id") eqn:Hid; simpl; [| done].
  destruct (hasattr entity "slug") eqn:Hslug; simpl; [| done].
  destruct (hasattr_getattr _ _ Hid) as (i & Hi & Hgi).
  destruct (hasattr_getattr _ _ Hslug) as (sl & Hsl & Hgsl).
  rewrite Hgi, Hgsl. simpl. unfold attr_is. rewrite Hi, Hsl.
  destruct i as [| z | s]; simpl; [done | |];
    (destruct sl; simpl; [done | |];
     rewrite check_existing_same_id_or_slug by done; simpl;
     by destruct (existsb _ _)).
Qed.

Lemma count_plain (h : heap) (self : MemoryAggregateImpl.t) :
  AggregateImpl._filter_spec (MemoryAggregateImpl.base self) = None ->
  AggregateImpl._order_spec (MemoryAggregateImpl.base self) = None ->
  AggregateImpl._slice_key (MemoryAggregateImpl.base self) = None ->
  MemoryAggregateImpl.count h self = Ok (Z.of_nat (length (stored h self))).
Proof.
  intros Hf Ho Hs. unfold MemoryAggregateImpl.count.
  rewrite iterator_stages, Hf, Ho, Hs. done.
Qed.

Lemma filterM_snoc {A : Type} (p : A -> result bool) (l : list A) (x : A) :
  filterM p (l ++ [x])
  = match filterM p l with
    | Ok r =>
        match p x with
        | Ok b => Ok (if b then (r ++ [x])%list else r)
        | Raise e => Raise e
        end
    | Raise e => Raise e
    end.
Proof.
  induction l as [| y l IH]; simpl.
  - destruct (p x) as [[|] | e]; reflexivity.
  - destruct (p y) as [b | e]; simpl; [| reflexivity].
    rewrite IH. destruct (filterM p l) as [r | e]; simpl; [| reflexivity].
    destruct (p x) as [[|] | e]; simpl; destruct b; reflexivity.
Qed.

Lemma filter_stage_snoc (fs : option filter_spec) (l f : list entity)
    (entity : entity) :
  filter_stage fs l = Ok f ->
  match filter_stage fs (l ++ [entity]) with
  | Ok f' =>
      filter_evaluates fs [entity] = true /\
      f' = if satisfies fs entity then (f ++ [entity])%list else f
  | Raise _ => filter_evaluates fs [entity] = false
  end.
Proof.
  destruct fs as [s |]; simpl.
  - intros Hf. rewrite filterM_snoc, Hf.
    by destruct (is_satisfied_by s entity) as [[|] | e].
  - by intros [= ->].
Qed.

Lemma order_stage_length (os : option order_spec) (f o : list entity) :
  order_stage os f = Ok o -> length o = length f.
Proof.
  destruct os as [s |]; simpl.
  - destruct (order_cmp s) as [cmp | e]; simpl; [| discriminate].
    intros H. apply sorted_permutation in H. symmetry.
    by apply Permutation_length.
  - by intros [= ->].
Qed.

Lemma count_without_slice (h : heap) (self : MemoryAggregateImpl.t) :
  AggregateImpl._slice_key (MemoryAggregateImpl.base self) = None ->
  MemoryAggregateImpl.count h self
  = match filter_stage (AggregateImpl._filter_spec (MemoryAggregateImpl.base self))
                       (stored h self) with
    | Ok f =>
        match order_stage (AggregateImpl._order_spec (MemoryAggregateImpl.base self))
                          f with
        | Ok _ => Ok (Z.of_nat (length f))
        | Raise e => Raise e
        end
    | Raise e => Raise e
    end.
Proof.
  intros Hk. unfold MemoryAggregateImpl.count. rewrite iterator_stages, Hk.
  destruct (filter_stage _ _) as [f | e]; simpl; [| reflexivity].
  destruct (order_stage _ f) as [o | e] eqn:Ho; simpl; [| reflexivity].
  by rewrite (order_stage_length _ _ _ Ho).
Qed.

Lemma filter_stage_filter (fs : option filter_spec) (l f : list entity) :
  filter_stage fs l = Ok f -> f = List.filter (satisfies fs) l.
Proof.
  destruct fs as [s |]; simpl.
  - revert f. induction l as [| x l IH]; intros f; simpl.
    + by intros [= <-].
    + destruct (is_satisfied_by s x) as [b | e]; simpl; [| discriminate].
      destruct (filterM (is_satisfied_by s) l) as [r | e]; simpl; [| discriminate].
      intros [= <-]. rewrite <- (IH r eq_refl). by destruct b.
  - intros [= <-]. by rewrite filter_satisfies_none.
Qed.

Lemma insert_sorted_returns (cmp : comparator) (x : entity) (l : list entity) :
  (forall y, In y l -> is_ok (cmp x y) = true) ->
  is_ok (insert_sorted cmp x l) = true.
Proof.
  induction l as [| y l IH]; intros H; simpl; [done |].
  pose proof (H y (or_introl eq_refl)) as Hy.
  destruct (cmp x y) as [[| |] | e]; simpl; try done.
  assert (is_ok (insert_sorted cmp x l) = true) as Hr
    by (apply IH; intros z Hz; apply H; by right).
  by destruct (insert_sorted cmp x l).
Qed.

Lemma sorted_returns (cmp : comparator) (l : list entity) :
  (forall a b, In a l -> In b l -> is_ok (cmp a b) = true) ->
  is_ok (sorted cmp l) = true.
Proof.
  induction l as [| x l IH]; intros H; simpl; [done |].
  assert (is_ok (sorted cmp l) = true) as Hr
    by (apply IH; intros a b Ha Hb; apply H; by right).
  destruct (sorted cmp l) as [rest |] eqn:Hrest; [| done]. simpl.
  apply insert_sorted_returns. intros y Hy. apply H; [by left | right].
  apply sorted_permutation in Hrest.
  by apply (Permutation_in _ (Permutation_sym Hrest)).
Qed.

Lemma order_stage_returns (os : option order_spec) (ents : list entity) :
  order_evaluates os ents = true -> is_ok (order_stage os ents) = true.
Proof.
  destruct os as [s |]; simpl; [| done].
  destruct (order_cmp s) as [cmp | e]; simpl; [| done].
  intros H. apply sorted_returns. intros a b Ha Hb.
  rewrite forallb_forall in H. specialize (H a Ha).
  rewrite forallb_forall in H. by apply H.
Qed.

(** C4, as the code has it.  On a memory aggregate whose stored entities
    all have an [id] and a [slug], [add] raises the validation error when
    the entity is not an instance of the entity class, lacks an [id] or a
    [slug] attribute, or has an id other than [None] together with either
    [None] for a slug or the id or the slug of a stored entity.  Otherwise
    it appends the entity to the backing list, which keeps every stored
    entity and grows by this one.  On an aggregate with no slice set,
    whenever [count] returns before and after, it is one more than before
    when the entity satisfies the filter of the aggregate (or no filter is
    set) and what it was before when the entity does not satisfy the
    filter, whatever order is set; it does return after the [add] when it
    returned before, the filter can be evaluated on the entity and the
    order (if one is set) can compare the entities that pass the filter,
    the new one included.  With no filter, order and slice set, [count] is
    the number of stored entities before and one more after. *)
Theorem add_validates_then_appends (h : heap) (self : MemoryAggregateImpl.t)
    (entity : entity) :
  forallb (fun ent => hasattr ent "id" && hasattr ent "slug") (stored h self) = true ->
  let h' := list_append h (MemoryAggregateImpl._get_entities h self) entity in
  let fs := AggregateImpl._filter_spec (MemoryAggregateImpl.base self) in
  let grown := if satisfies fs entity then 1 else 0 in
  MemoryAggregateImpl.add h self entity
  = (if rejected (AggregateImpl.entity_class (MemoryAggregateImpl.base self))
                 (stored h self) entity
     then Raise ValueError
     else Ok h') /\
  stored h' self = (stored h self ++ [entity])%list /\
  match AggregateImpl._filter_spec (MemoryAggregateImpl.base self),
        AggregateImpl._order_spec (MemoryAggregateImpl.base self),
        AggregateImpl._slice_key (MemoryAggregateImpl.base self) with
  | None, None, None =>
      MemoryAggregateImpl.count h self = Ok (Z.of_nat (length (stored h self))) /\
      MemoryAggregateImpl.count h' self
      = Ok (Z.of_nat (length (stored h self)) + 1)
  | _, _, _ => True
  end /\
  match AggregateImpl._slice_key (MemoryAggregateImpl.base self),
        MemoryAggregateImpl.count h self with
  | None, Ok n =>
      match MemoryAggregateImpl.count h' self with
      | Ok n' => n' = n + grown
      | Raise _ => True
      end /\
      if filter_evaluates fs [entity]
         && order_evaluates
              (AggregateImpl._order_spec (MemoryAggregateImpl.base self))
              (List.filter (satisfies fs) (stored h self ++ [entity]))
      then MemoryAggregateImpl.count h' self = Ok (n + grown)
      else True
  | _, _ => True
  end.
Proof.
  intros Hs h' fs grown. split; [by apply add_rejected |].
  split; [apply stored_list_append |]. split.
  - destruct (AggregateImpl._filter_spec _) eqn:Hf; [done |].
    destruct (AggregateImpl._order_spec _) eqn:Ho; [done |].
    destruct (AggregateImpl._slice_key _) eqn:Hk; [done |].
    rewrite !count_plain by done. split; [done |].
    unfold h'. rewrite stored_list_append, length_app. simpl. f_equal. lia.
  - destruct (AggregateImpl._slice_key _) eqn:Hk; [done |].
    rewrite !count_without_slice by done. fold fs.
    unfold h'. rewrite stored_list_append.
    set (os := AggregateImpl._order_spec (MemoryAggregateImpl.base self)).
    destruct (filter_stage fs (stored h self)) as [f | e] eqn:Hf; [| done].
    destruct (order_stage os f) as [o | e] eqn:Ho; [| done].
    pose proof (filter_stage_snoc fs (stored h self) f entity Hf) as Hsnoc.
    destruct (filter_stage fs (stored h self ++ [entity])) as [f' | e'].
    + destruct Hsnoc as [Hev ->].
      assert (Z.of_nat (length (if satisfies fs entity
                                then (f ++ [entity])%list else f))
              = Z.of_nat (length f) + grown) as Hlen.
      { unfold grown. destruct (satisfies fs entity); [| lia].
        rewrite length_app. simpl. lia. }
      split.
      * destruct (order_stage os (if satisfies fs entity
                                  then (f ++ [entity])%list else f))
          as [o' | e']; [exact Hlen | done].
      * rewrite Hev. simpl.
        destruct (order_evaluates os _) eqn:Hoe; [| done].
        rewrite List.filter_app, <- (filter_stage_filter _ _ _ Hf) in Hoe.
        simpl in Hoe.
        assert ((f ++ (if satisfies fs entity then [entity] else []))%list
                = if satisfies fs entity then (f ++ [entity])%list else f)
          as Heq by (destruct (satisfies fs entity); [done | by rewrite app_nil_r]).
        rewrite Heq in Hoe. apply order_stage_returns in Hoe.
        destruct (order_stage os (if satisfies fs entity
                                  then (f ++ [entity])%list else f))
          as [o' | e']; [| done].
        by rewrite Hlen.
    + split; [done |]. by rewrite Hsnoc.
Qed.

Lemma add_validates_then_appends_witness :
  let h := store_of [ann; bob] in
  let self := persons (Some slug_starts_with_b) (Some by_id) None in
  forallb (fun ent => hasattr ent "id" && hasattr ent "slug") (stored h self) = true /\
  MemoryAggregateImpl.add h self boo = Ok (store_of [ann; bob; boo]) /\
  MemoryAggregateImpl.add h self bea = Raise ValueError /\
  MemoryAggregateImpl.count h self = Ok 1 /\
  MemoryAggregateImpl.count (store_of [ann; bob; boo]) self = Ok 2 /\
  MemoryAggregateImpl.count (store_of [ann; bob; cid]) self = Ok 1 /\
  MemoryAggregateImpl.count h (persons None None None) = Ok 2 /\
  MemoryAggregateImpl.count (store_of [ann; bob; cid]) (persons None None None)
  = Ok 3.
Proof.
  intros h self.
  assert (forallb (fun ent => hasattr ent "id" && hasattr ent "slug")
                  (stored h self) = true) as Hwf by (vm_compute; reflexivity).
  split; [exact Hwf |].
  destruct (add_validates_then_appends h self boo Hwf) as (Hadd & _ & _ & Hboo).
  destruct (add_validates_then_appends h self bea Hwf) as (Hbea & _).
  destruct (add_validates_then_appends h self cid Hwf) as (_ & _ & _ & Hcid).
  destruct (add_validates_then_appends h (persons None None None) cid Hwf)
    as (_ & _ & [Hp1 Hp2] & _).
  split; [rewrite Hadd; vm_compute; reflexivity |].
  split; [rewrite Hbea; vm_compute; reflexivity |].
  assert (MemoryAggregateImpl.count h self = Ok 1) as Hc by (vm_compute; reflexivity).
  split; [exact Hc |].
  split.
  { cbv zeta in Hboo.
    replace (AggregateImpl._slice_key (MemoryAggregateImpl.base self))
      with (@None py_slice) in Hboo by reflexivity.
    rewrite Hc in Hboo. destruct Hboo as [_ Hboo].
    match type of Hboo with
    | if ?c then _ else _ =>
        replace c with true in Hboo by (vm_compute; reflexivity)
    end.
    replace (list_append h (MemoryAggregateImpl._get_entities h self) boo)
      with (store_of [ann; bob; boo]) in Hboo by (vm_compute; reflexivity).
    rewrite Hboo. vm_compute. reflexivity. }
  split; [vm_compute; reflexivity |].
  split; [rewrite Hp1; vm_compute; reflexivity |].
  vm_compute. reflexivity.
Defined.

(** C4, as stated, fails on an aggregate with a filter: [ann] is valid and
    new and is appended, and [count] stays what it was, since [ann] does
    not satisfy the filter. *)
Lemma add_outside_filter_keeps_count :
  let h := store_of [bob] in
  let self := persons (Some slug_starts_with_b) None None in
  rejected "Person" (stored h self) ann = false /\
  MemoryAggregateImpl.add h self ann = Ok (store_of [bob; ann]) /\
  MemoryAggregateImpl.count h self = Ok 1 /\
  MemoryAggregateImpl.count (store_of [bob; ann]) self = Ok 1.
Proof. vm_compute. done. Qed.

(** ** Counting *)

(** C2, on the code.  The [count] of a memory aggregate is the length of
    what its iterator yields, slice included: with three stored persons,
    no filter and the slice [0, 1), it is 1 and not 3.  The [count] of an
    ORM aggregate does not depend on the order and the slice. *)
Theorem memory_count_applies_slice (db : backend) (h : heap)
    (self : OrmAggregateImpl.t) (order_spec : option order_spec)
    (slice_key : option py_slice) :
  filter_stage None (stored (store_of [ann; bob; cid]) (persons None None None))
  = Ok [ann; bob; cid] /\
  MemoryAggregateImpl.count (store_of [ann; bob; cid]) (persons None None None)
  = Ok 3 /\
  MemoryAggregateImpl.count (store_of [ann; bob; cid])
    (persons None None (Some first_only)) = Ok 1 /\
  fst (OrmAggregateImpl.count db h (orm_with_order_slice self order_spec slice_key))
  = fst (OrmAggregateImpl.count db h self).
Proof.
  split; [vm_compute; reflexivity |]. split; [vm_compute; reflexivity |].
  split; [vm_compute; reflexivity |].
  unfold OrmAggregateImpl.count, OrmAggregateImpl.__defaults_empty,
    OrmAggregateImpl.__get_filtered_query, OrmAggregateImpl._get_base_query,
    orm_with_order_slice. simpl.
  destruct (AggregateImpl._relationship (OrmAggregateImpl.base self)); simpl;
    destruct (bool_decide _ && OrmAggregateImpl._search_mode self); done.
Qed.

(** C5, on the code.  For an ORM aggregate constructed in search mode that
    has no filter, [count] returns 0 and runs no query: the session is
    flushed when the aggregate is scoped by a relationship and is not used
    otherwise.  The iterator runs no query either, and it yields one item,
    [None], and not an empty sequence. *)
Theorem search_mode_without_filter (db : backend) (h : heap)
    (entity_class : string) (session : list session_op)
    (relationship : option loc) :
  let self := orm_aggregate entity_class session true relationship in
  let flushed := match relationship with
                 | None => session
                 | Some _ => (session ++ [SFlush])%list
                 end in
  OrmAggregateImpl.__defaults_empty self = true /\
  fst (OrmAggregateImpl.count db h self) = 0 /\
  OrmAggregateImpl._session (snd (OrmAggregateImpl.count db h self)) = flushed /\
  fst (OrmAggregateImpl.iterator db h self) = [None] /\
  OrmAggregateImpl._session (snd (OrmAggregateImpl.iterator db h self)) = flushed /\
  existsb executes_query (drop (length session) flushed) = false.
Proof.
  intros self flushed. unfold self, flushed.
  destruct relationship as [r |]; simpl.
  - repeat split; try reflexivity.
    rewrite drop_app_length. reflexivity.
  - repeat split; try reflexivity.
    rewrite drop_all. reflexivity.
Qed.

(** ** Clones of memory aggregates *)

Lemma add_ok_list_append (h h' : heap) (self : MemoryAggregateImpl.t)
    (entity : entity) :
  MemoryAggregateImpl.add h self entity = Ok h' ->
  h' = list_append h (MemoryAggregateImpl._get_entities h self) entity.
Proof.
  unfold MemoryAggregateImpl.add.
  destruct (negb (isinstance entity _)); [discriminate |].
  destruct (negb (hasattr entity "id")); [discriminate |].
  destruct (negb (hasattr entity "slug")); [discriminate |].
  destruct (getattr entity "id") as [i | e]; simpl; [| discriminate].
  destruct (getattr entity "slug") as [sl | e]; simpl; [| discriminate].
  destruct (negb (py_is_none i)); simpl.
  - destruct (py_is_none sl); simpl; [discriminate |].
    destruct (MemoryAggregateImpl.__check_existing h self entity) as [[|] | e];
      simpl; try discriminate.
    by intros [= <-].
  - by intros [= <-].
Qed.

Lemma clone_get_entities (h h2 : heap) (self : MemoryAggregateImpl.t) :
  MemoryAggregateImpl._get_entities h2 (fst (MemoryAggregateImpl.clone self h))
  = MemoryAggregateImpl._get_entities h2 self.
Proof.
  unfold MemoryAggregateImpl.clone, MemoryAggregateImpl._get_entities.
  destruct self as [[rel cls fs os sk] ents]; simpl. by destruct rel.
Qed.

Lemma clone_base (h : heap) (self : MemoryAggregateImpl.t) :
  MemoryAggregateImpl.base (fst (MemoryAggregateImpl.clone self h))
  = MemoryAggregateImpl.base self.
Proof.
  unfold MemoryAggregateImpl.clone. simpl.
  destruct self as [[rel cls fs os sk] ents]; simpl. by destruct rel.
Qed.

(** C9, as the code has it.  A clone of a memory aggregate carries over
    the filter, order, slice and relationship of the original.  Without a
    relationship the clone has the backing list of the original, by
    reference; with a relationship the clone has a new, empty list of its
    own, and both the clone and the original work on the children of the
    one relationship they share.  In both cases an [add] through the clone
    does what the same [add] through the original does, and the clone and
    the original see the same entities in their lookups and iterations, in
    every store: what is added through one is visible through the other. *)
Theorem clone_shares_entities (h h2 : heap) (self : MemoryAggregateImpl.t)
    (entity : entity) (key : value) :
  let clone := fst (MemoryAggregateImpl.clone self h) in
  MemoryAggregateImpl.base clone = MemoryAggregateImpl.base self /\
  MemoryAggregateImpl.__entities clone
  = match AggregateImpl._relationship (MemoryAggregateImpl.base self) with
    | None => MemoryAggregateImpl.__entities self
    | Some _ => next_loc h
    end /\
  read_list (snd (MemoryAggregateImpl.clone self h)) (next_loc h) = [] /\
  MemoryAggregateImpl.add h2 clone entity = MemoryAggregateImpl.add h2 self entity /\
  stored h2 clone = stored h2 self /\
  MemoryAggregateImpl.get_by_id h2 clone key
  = MemoryAggregateImpl.get_by_id h2 self key /\
  MemoryAggregateImpl.get_by_slug h2 clone key
  = MemoryAggregateImpl.get_by_slug h2 self key /\
  MemoryAggregateImpl.iterator h2 clone = MemoryAggregateImpl.iterator h2 self /\
  match MemoryAggregateImpl.add h2 clone entity with
  | Ok h3 => stored h3 self = (stored h2 self ++ [entity])%list
  | Raise _ => True
  end.
Proof.
  intros clone.
  assert (MemoryAggregateImpl.base clone = MemoryAggregateImpl.base self) as Hb
    by apply clone_base.
  assert (forall h', MemoryAggregateImpl._get_entities h' clone
                     = MemoryAggregateImpl._get_entities h' self) as Hg
    by (intros h'; apply clone_get_entities).
  assert (MemoryAggregateImpl.add h2 clone entity
          = MemoryAggregateImpl.add h2 self entity) as Hadd.
  { unfold MemoryAggregateImpl.add, MemoryAggregateImpl.__check_existing.
    by rewrite Hb, Hg. }
  split; [done |]. split.
  { unfold clone, MemoryAggregateImpl.clone. simpl.
    by destruct (AggregateImpl._relationship (MemoryAggregateImpl.base self)). }
  split.
  { unfold MemoryAggregateImpl.clone, read_list. simpl.
    by rewrite lookup_total_insert_eq. }
  split; [done |]. split; [unfold stored; by rewrite Hg |].
  split.
  { unfold MemoryAggregateImpl.get_by_id, MemoryAggregateImpl.__filter_by_attr.
    by rewrite Hb, Hg. }
  split.
  { unfold MemoryAggregateImpl.get_by_slug, MemoryAggregateImpl.__filter_by_attr.
    by rewrite Hb, Hg. }
  split; [unfold MemoryAggregateImpl.iterator; by rewrite Hb, Hg |].
  rewrite Hadd. destruct (MemoryAggregateImpl.add h2 self entity) as [h3 |] eqn:Ha;
    [| done].
  apply add_ok_list_append in Ha as ->. apply stored_list_append.
Qed.

(** C9, as stated, fails for an aggregate scoped by a relationship: [ann],
    added through the clone, goes to the children of the relationship the
    clone shares with the original, and the original finds it in its
    lookups and its iteration. *)
Lemma add_through_scoped_clone_is_visible :
  match scoped_clone_scenario with
  | Ok (original, clone, h) =>
      AggregateImpl._relationship (MemoryAggregateImpl.base original) = Some 2%nat /\
      AggregateImpl._relationship (MemoryAggregateImpl.base clone) = Some 2%nat /\
      MemoryAggregateImpl.__entities original = 0%nat /\
      MemoryAggregateImpl.__entities clone = 3%nat /\
      MemoryAggregateImpl.get_by_id h original (VInt 1) = Ok (Some ann) /\
      MemoryAggregateImpl.iterator h original = Ok [bob; ann]
  | Raise _ => False
  end.
Proof. vm_compute. repeat split; reflexivity. Qed.

(** * Further properties *)

(** ** Identities in memory aggregates *)

Lemma add_ok_not_rejected (h h' : heap) (self : MemoryAggregateImpl.t)
    (entity : entity) :
  well_formed (stored h self) = true ->
  MemoryAggregateImpl.add h self entity = Ok h' ->
  rejected (AggregateImpl.entity_class (MemoryAggregateImpl.base self))
           (stored h self) entity = false /\
  stored h' self = (stored h self ++ [entity])%list.
Proof.
  intros Hwf Hadd. split.
  - rewrite add_rejected in Hadd by exact Hwf.
    by destruct (rejected _ _ _).
  - apply add_ok_list_append in Hadd as ->. apply stored_list_append.
Qed.

Lemma not_rejected_inv (cls : string) (ents : list entity) (entity : entity) :
  rejected cls ents entity = false ->
  isinstance entity cls = true /\
  hasattr entity "id" = true /\
  hasattr entity "slug" = true /\
  (attr_is "id" VNone entity = true \/
   attr_is "slug" VNone entity = false /\
   existsb (same_id_or_slug entity) ents = false).
Proof.
  unfold rejected. intros H.
  apply orb_false_iff in H as [H H4]. apply orb_false_iff in H as [H H3].
  apply orb_false_iff in H as [H1 H2].
  apply negb_false_iff in H1, H2, H3.
  repeat (split; [done |]).
  destruct (attr_is "id" VNone entity); [by left | right].
  simpl in H4. by apply orb_false_iff in H4.
Qed.

Lemma well_formed_app (ents : list entity) (entity : entity) :
  well_formed ents = true ->
  hasattr entity "id" = true ->
  hasattr entity "slug" = true ->
  well_formed (ents ++ [entity]) = true.
Proof.
  unfold well_formed. intros Hw Hi Hs.
  rewrite forallb_app, Hw. simpl. by rewrite Hi, Hs.
Qed.

Lemma same_id_or_slug_false (entity ent : entity) :
  same_id_or_slug entity ent = false ->
  ent_attrs ent !! "id" <> ent_attrs entity !! "id" /\
  ent_attrs ent !! "slug" <> ent_attrs entity !! "slug".
Proof.
  unfold same_id_or_slug. intros H. apply orb_false_iff in H as [H1 H2].
  by apply bool_decide_eq_false in H1, H2.
Qed.

(** X1.  [add] keeps the ids of a memory aggregate unique: when no two
    stored entities have the same id other than [None], this still holds
    after every [add] that returns. *)
Theorem add_keeps_ids_unique (h h' : heap) (self : MemoryAggregateImpl.t)
    (entity : entity) :
  well_formed (stored h self) = true ->
  unique_ids (stored h self) = true ->
  MemoryAggregateImpl.add h self entity = Ok h' ->
  unique_ids (stored h' self) = true /\ well_formed (stored h' self) = true.
Proof.
  intros Hwf Hu Hadd.
  destruct (add_ok_not_rejected _ _ _ _ Hwf Hadd) as [Hrej ->].
  apply not_rejected_inv in Hrej as (_ & Hid & Hslug & Hcase).
  split; [| by apply well_formed_app].
  unfold unique_ids in *. apply bool_decide_eq_true in Hu.
  apply bool_decide_eq_true. rewrite omap_app. simpl.
  destruct (non_none_id entity) as [v |] eqn:Hv; [| by rewrite app_nil_r].
  apply NoDup_app. split; [done |]. split; [| apply NoDup_singleton].
  intros x Hx Hin. apply list_elem_of_singleton in Hin as ->.
  apply list_elem_of_omap in Hx as (ent & Hent & Hentv).
  destruct Hcase as [Hnone | [_ Hex]].
  - unfold attr_is in Hnone. apply bool_decide_eq_true in Hnone.
    unfold non_none_id in Hv. by rewrite Hnone in Hv.
  - assert (same_id_or_slug entity ent = false) as Hsame.
    { destruct (same_id_or_slug entity ent) eqn:Hs; [| done].
      assert (existsb (same_id_or_slug entity) (stored h self) = true) as Ht.
      { apply existsb_exists. exists ent. split; [| done].
        by apply list_elem_of_In. }
      congruence. }
    apply same_id_or_slug_false in Hsame as [Hne _].
    unfold non_none_id in Hv, Hentv.
    destruct (ent_attrs ent !! "id") as [[| |] |];
      destruct (ent_attrs entity !! "id") as [[| |] |]; congruence.
Qed.

Lemma add_keeps_ids_unique_witness :
  let h := store_of [ann; bob] in
  let self := persons None None None in
  well_formed (stored h self) = true /\
  unique_ids (stored h self) = true /\
  MemoryAggregateImpl.add h self cid = Ok (store_of [ann; bob; cid]) /\
  unique_ids (stored (store_of [ann; bob; cid]) self) = true /\
  well_formed (stored (store_of [ann; bob; cid]) self) = true.
Proof.
  intros h self.
  split; [vm_compute; reflexivity |]. split; [vm_compute; reflexivity |].
  split; [vm_compute; reflexivity |].
  apply (add_keeps_ids_unique h (store_of [ann; bob; cid]) self cid);
    vm_compute; reflexivity.
Defined.

Lemma filter_none {A : Type} (f : A -> bool) (l : list A) :
  (forall x, In x l -> f x = false) -> List.filter f l = [].
Proof.
  induction l as [| x l IH]; intros H; simpl; [done |].
  rewrite (H x) by (by left). apply IH. intros y Hy. apply H. by right.
Qed.

Lemma well_formed_attr (ents : list entity) :
  well_formed ents = true ->
  forallb (fun ent => hasattr ent "id") ents = true /\
  forallb (fun ent => hasattr ent "slug") ents = true.
Proof.
  unfold well_formed. rewrite !forallb_forall. intros H.
  split; intros ent Hin; specialize (H ent Hin);
    apply andb_true_iff in H; tauto.
Qed.

Lemma considered_matching_first (fs : option filter_spec) (attr : string)
    (v : value) (ents : list entity) :
  considered fs attr v ents
  = List.filter (satisfies fs) (List.filter (attr_is attr v) ents).
Proof.
  unfold considered. induction ents as [| ent ents IH]; [done |].
  cbn [List.filter]. destruct (attr_is attr v ent); cbn [List.filter andb].
  - by rewrite IH.
  - done.
Qed.

(** X2.  What [add] stored is found again: after an [add] that returns, of
    an entity with an id other than [None] that satisfies the filter of the
    aggregate (if it has one), [get_by_id] with the id of the entity and
    [get_by_slug] with its slug return this entity, not a duplicate error
    and not [None].  Nothing is asked of the filter on the other stored
    entities. *)
Theorem add_then_lookup (h h' : heap) (self : MemoryAggregateImpl.t)
    (entity : entity) (i s : value) :
  well_formed (stored h self) = true ->
  MemoryAggregateImpl.add h self entity = Ok h' ->
  ent_attrs entity !! "id" = Some i ->
  py_is_none i = false ->
  ent_attrs entity !! "slug" = Some s ->
  satisfies (AggregateImpl._filter_spec (MemoryAggregateImpl.base self)) entity
  = true ->
  MemoryAggregateImpl.get_by_id h' self i = Ok (Some entity) /\
  MemoryAggregateImpl.get_by_slug h' self s = Ok (Some entity).
Proof.
  intros Hwf Hadd Hi Hne Hs Hsat.
  destruct (add_ok_not_rejected _ _ _ _ Hwf Hadd) as [Hrej Hst].
  apply not_rejected_inv in Hrej as (_ & Hid & Hslug & Hcase).
  destruct Hcase as [Hnone | [_ Hex]].
  { unfold attr_is in Hnone. apply bool_decide_eq_true in Hnone.
    rewrite Hi in Hnone. injection Hnone as ->. discriminate. }
  assert (well_formed (stored h' self) = true) as Hwf'
    by (rewrite Hst; by apply well_formed_app).
  destruct (well_formed_attr _ Hwf') as [Hwi Hws].
  assert (forall ent, In ent (stored h self) ->
                      same_id_or_slug entity ent = false) as Hother.
  { intros ent Hin. destruct (same_id_or_slug entity ent) eqn:Hsame; [| done].
    assert (existsb (same_id_or_slug entity) (stored h self) = true)
      by (apply existsb_exists; eauto).
    congruence. }
  assert (List.filter (attr_is "id" i) (stored h' self) = [entity]) as Hmi.
  { rewrite Hst, List.filter_app, filter_none.
    - simpl. unfold attr_is. by rewrite bool_decide_eq_true_2.
    - intros ent Hin. apply Hother, same_id_or_slug_false in Hin as [Hd _].
      unfold attr_is. rewrite bool_decide_eq_false_2; [done | congruence]. }
  assert (List.filter (attr_is "slug" s) (stored h' self) = [entity]) as Hms.
  { rewrite Hst, List.filter_app, filter_none.
    - simpl. unfold attr_is. by rewrite bool_decide_eq_true_2.
    - intros ent Hin. apply Hother, same_id_or_slug_false in Hin as [_ Hd].
      unfold attr_is. rewrite bool_decide_eq_false_2; [done | congruence]. }
  assert (filter_evaluates
            (AggregateImpl._filter_spec (MemoryAggregateImpl.base self)) [entity]
          = true) as Hev.
  { destruct (AggregateImpl._filter_spec (MemoryAggregateImpl.base self)) as [f |];
      simpl in *; [| done].
    by destruct (is_satisfied_by f entity). }
  assert (forall attr v,
            List.filter (attr_is attr v) (stored h' self) = [entity] ->
            considered (AggregateImpl._filter_spec (MemoryAggregateImpl.base self))
                       attr v (stored h' self) = [entity]) as Hcons.
  { intros attr v Hm. rewrite considered_matching_first, Hm. simpl.
    by rewrite Hsat. }
  split.
  - rewrite get_by_id_matching by (rewrite ?Hmi; done).
    by rewrite Hcons.
  - rewrite get_by_slug_matching by (rewrite ?Hms; done).
    by rewrite Hcons.
Qed.

Lemma add_then_lookup_witness :
  let h := store_of [nobody] in
  let h' := store_of [nobody; bob] in
  let self := persons (Some slug_starts_with_b) None None in
  well_formed (stored h self) = true /\
  MemoryAggregateImpl.add h self bob = Ok h' /\
  ent_attrs bob !! "id" = Some (VInt 2) /\
  py_is_none (VInt 2) = false /\
  ent_attrs bob !! "slug" = Some (VStr "bob") /\
  satisfies (Some slug_starts_with_b) bob = true /\
  filter_evaluates (Some slug_starts_with_b) (stored h' self) = false /\
  MemoryAggregateImpl.get_by_id h' self (VInt 2) = Ok (Some bob) /\
  MemoryAggregateImpl.get_by_slug h' self (VStr "bob") = Ok (Some bob).
Proof.
  intros h h' self.
  do 7 (split; [vm_compute; reflexivity |]).
  apply (add_then_lookup h h' self bob (VInt 2) (VStr "bob"));
    vm_compute; reflexivity.
Defined.

Lemma get_entities_list_append (h : heap) (self : MemoryAggregateImpl.t)
    (l : loc) (entity : entity) :
  MemoryAggregateImpl._get_entities (list_append h l entity) self
  = MemoryAggregateImpl._get_entities h self.
Proof. reflexivity. Qed.

(** X3.  [add] does not check an entity whose id is [None]: it is always
    appended, whatever is stored.  Adding it twice stores it twice, and the
    lookups by its slug and by the id [None] then raise the duplicate
    error. *)
Theorem add_without_id_is_unchecked (h : heap) (self : MemoryAggregateImpl.t)
    (entity : entity) (s : value) :
  isinstance entity (AggregateImpl.entity_class (MemoryAggregateImpl.base self))
  = true ->
  ent_attrs entity !! "id" = Some VNone ->
  ent_attrs entity !! "slug" = Some s ->
  well_formed (stored h self) = true ->
  AggregateImpl._filter_spec (MemoryAggregateImpl.base self) = None ->
  let l := MemoryAggregateImpl._get_entities h self in
  let h1 := list_append h l entity in
  let h2 := list_append h1 l entity in
  MemoryAggregateImpl.add h self entity = Ok h1 /\
  MemoryAggregateImpl.add h1 self entity = Ok h2 /\
  stored h2 self = (stored h self ++ [entity; entity])%list /\
  MemoryAggregateImpl.get_by_slug h2 self s = Raise DuplicateException /\
  MemoryAggregateImpl.get_by_id h2 self VNone = Raise DuplicateException.
Proof.
  intros Hinst Hid Hslug Hwf Hfs l h1 h2.
  assert (hasattr entity "id" = true) as Hhi
    by (unfold hasattr; apply bool_decide_eq_true; rewrite Hid; eauto).
  assert (hasattr entity "slug" = true) as Hhs
    by (unfold hasattr; apply bool_decide_eq_true; rewrite Hslug; eauto).
  assert (forall h0, MemoryAggregateImpl.add h0 self entity
                     = Ok (list_append h0 (MemoryAggregateImpl._get_entities h0 self)
                                       entity)) as Hadd.
  { intros h0. unfold MemoryAggregateImpl.add, getattr.
    rewrite Hinst, Hhi, Hhs, Hid, Hslug. reflexivity. }
  assert (stored h1 self = (stored h self ++ [entity])%list) as Hs1
    by apply stored_list_append.
  assert (stored h2 self = (stored h self ++ [entity; entity])%list) as Hs2.
  { unfold h2, l. rewrite <- (get_entities_list_append h self l entity).
    fold h1. rewrite stored_list_append, Hs1, <- app_assoc. reflexivity. }
  assert (well_formed (stored h2 self) = true) as Hwf2.
  { rewrite Hs2. unfold well_formed in *. rewrite forallb_app, Hwf. simpl.
    by rewrite Hhi, Hhs. }
  destruct (well_formed_attr _ Hwf2) as [Hwi Hws].
  split; [apply Hadd |]. split; [apply (Hadd h1) |]. split; [exact Hs2 |].
  split.
  - rewrite get_by_slug_considered by (rewrite ?Hfs; done).
    rewrite Hfs, Hs2. unfold considered. rewrite List.filter_app. simpl.
    unfold attr_is at 2 3. rewrite !bool_decide_eq_true_2 by done. simpl.
    by destruct (List.filter _ (stored h self)) as [| a [| b k]].
  - rewrite get_by_id_considered by (rewrite ?Hfs; done).
    rewrite Hfs, Hs2. unfold considered. rewrite List.filter_app. simpl.
    unfold attr_is at 2 3. rewrite !bool_decide_eq_true_2 by done. simpl.
    by destruct (List.filter _ (stored h self)) as [| a [| b k]].
Qed.

Lemma add_without_id_is_unchecked_witness :
  let h := store_of [ann] in
  let self := persons None None None in
  isinstance blank "Person" = true /\
  ent_attrs blank !! "id" = Some VNone /\
  ent_attrs blank !! "slug" = Some (VStr "blank") /\
  well_formed (stored h self) = true /\
  MemoryAggregateImpl.add h self blank = Ok (store_of [ann; blank]) /\
  MemoryAggregateImpl.add (store_of [ann; blank]) self blank
  = Ok (store_of [ann; blank; blank]) /\
  MemoryAggregateImpl.get_by_slug (store_of [ann; blank; blank]) self (VStr "blank")
  = Raise DuplicateException.
Proof.
  intros h self.
  destruct (add_without_id_is_unchecked h self blank (VStr "blank"))
    as (H1 & H2 & _ & H4 & _); try (vm_compute; reflexivity).
  do 4 (split; [vm_compute; reflexivity |]).
  split; [exact H1 |]. split; [exact H2 | exact H4].
Defined.

(** ** Aggregates on different lists *)

Lemma iterator_stored (h h' : heap) (self : MemoryAggregateImpl.t) :
  stored h' self = stored h self ->
  MemoryAggregateImpl.iterator h' self = MemoryAggregateImpl.iterator h self.
Proof. intros H. by rewrite !iterator_stages, H. Qed.

Lemma get_by_id_stored (h h' : heap) (self : MemoryAggregateImpl.t) (key : value) :
  stored h' self = stored h self ->
  MemoryAggregateImpl.get_by_id h' self key
  = MemoryAggregateImpl.get_by_id h self key.
Proof.
  intros H. unfold MemoryAggregateImpl.get_by_id.
  fold (stored h' self). fold (stored h self). by rewrite H.
Qed.

Lemma get_by_slug_stored (h h' : heap) (self : MemoryAggregateImpl.t) (key : value) :
  stored h' self = stored h self ->
  MemoryAggregateImpl.get_by_slug h' self key
  = MemoryAggregateImpl.get_by_slug h self key.
Proof.
  intros H. unfold MemoryAggregateImpl.get_by_slug.
  fold (stored h' self). fold (stored h self). by rewrite H.
Qed.

Lemma stored_after_add_elsewhere (h h' : heap)
    (self other : MemoryAggregateImpl.t) (entity : entity) :
  MemoryAggregateImpl.add h self entity = Ok h' ->
  MemoryAggregateImpl._get_entities h other
  <> MemoryAggregateImpl._get_entities h self ->
  stored h' other = stored h other.
Proof.
  intros Hadd Hne. apply add_ok_list_append in Hadd as ->.
  unfold stored. rewrite get_entities_list_append.
  unfold read_list, list_append. simpl.
  by rewrite lookup_total_insert_ne.
Qed.

(** X4.  An [add] through a memory aggregate changes the one list the
    aggregate works on and nothing else: an aggregate that works on another
    list stores, yields, counts and finds what it did before, and no
    relationship is changed. *)
Theorem add_leaves_other_lists (h h' : heap) (self other : MemoryAggregateImpl.t)
    (entity : entity) (key : value) :
  MemoryAggregateImpl.add h self entity = Ok h' ->
  MemoryAggregateImpl._get_entities h other
  <> MemoryAggregateImpl._get_entities h self ->
  stored h' other = stored h other /\
  MemoryAggregateImpl.iterator h' other = MemoryAggregateImpl.iterator h other /\
  MemoryAggregateImpl.count h' other = MemoryAggregateImpl.count h other /\
  MemoryAggregateImpl.get_by_id h' other key
  = MemoryAggregateImpl.get_by_id h other key /\
  MemoryAggregateImpl.get_by_slug h' other key
  = MemoryAggregateImpl.get_by_slug h other key /\
  rels h' = rels h.
Proof.
  intros Hadd Hne.
  pose proof (stored_after_add_elsewhere h h' self other entity Hadd Hne) as Hst.
  apply add_ok_list_append in Hadd as ->.
  split; [done |]. split; [by apply iterator_stored |].
  split; [unfold MemoryAggregateImpl.count; by rewrite (iterator_stored h) |].
  split; [by apply get_by_id_stored |].
  split; [by apply get_by_slug_stored | done].
Qed.

Lemma add_leaves_other_lists_witness :
  let h := two_lists [ann] [bob] in
  let h' := two_lists [ann; cid] [bob] in
  MemoryAggregateImpl.add h (persons_at 0%nat) cid = Ok h' /\
  MemoryAggregateImpl._get_entities h (persons_at 1%nat)
  <> MemoryAggregateImpl._get_entities h (persons_at 0%nat) /\
  stored h' (persons_at 1%nat) = stored h (persons_at 1%nat) /\
  MemoryAggregateImpl.get_by_id h' (persons_at 1%nat) (VInt 3)
  = MemoryAggregateImpl.get_by_id h (persons_at 1%nat) (VInt 3).
Proof.
  intros h h'.
  assert (MemoryAggregateImpl.add h (persons_at 0%nat) cid = Ok h') as Hadd
    by (vm_compute; reflexivity).
  assert (MemoryAggregateImpl._get_entities h (persons_at 1%nat)
          <> MemoryAggregateImpl._get_entities h (persons_at 0%nat)) as Hne
    by (vm_compute; lia).
  destruct (add_leaves_other_lists h h' (persons_at 0%nat) (persons_at 1%nat) cid (VInt 3)
              Hadd Hne) as (H1 & _ & _ & H4 & _).
  done.
Defined.

(** X5.  A newly created memory aggregate is empty and on a list of its
    own: it yields nothing, counts 0 and finds nothing, and the aggregates
    that were there before, on lists allocated before, store what they did. *)
Theorem create_is_empty_and_apart (h : heap) (entity_class : string)
    (other : MemoryAggregateImpl.t) (key : value) :
  (MemoryAggregateImpl._get_entities h other < next_loc h)%nat ->
  let created := fst (MemoryAggregateImpl.create entity_class h) in
  let h1 := snd (MemoryAggregateImpl.create entity_class h) in
  stored h1 created = [] /\
  MemoryAggregateImpl.iterator h1 created = Ok [] /\
  MemoryAggregateImpl.count h1 created = Ok 0 /\
  MemoryAggregateImpl.get_by_id h1 created key = Ok None /\
  MemoryAggregateImpl.get_by_slug h1 created key = Ok None /\
  MemoryAggregateImpl._get_entities h1 created
  <> MemoryAggregateImpl._get_entities h1 other /\
  stored h1 other = stored h other.
Proof.
  intros Hlt created h1.
  assert (stored h1 created = []) as Hst.
  { unfold stored, read_list. simpl. by rewrite lookup_total_insert_eq. }
  split; [done |].
  split; [rewrite iterator_stages, Hst; reflexivity |].
  split; [rewrite count_plain, Hst; reflexivity |].
  split.
  { unfold MemoryAggregateImpl.get_by_id. fold (stored h1 created).
    rewrite Hst. reflexivity. }
  split.
  { unfold MemoryAggregateImpl.get_by_slug. fold (stored h1 created).
    rewrite Hst. reflexivity. }
  assert (MemoryAggregateImpl._get_entities h1 other
          = MemoryAggregateImpl._get_entities h other) as Hg by reflexivity.
  split.
  - rewrite Hg.
    change (next_loc h <> MemoryAggregateImpl._get_entities h other). lia.
  - unfold stored. rewrite Hg. unfold read_list. simpl.
    rewrite lookup_total_insert_ne by lia. reflexivity.
Qed.

Lemma create_is_empty_and_apart_witness :
  let h := store_of [ann; bob] in
  let other := persons None None None in
  let created := fst (MemoryAggregateImpl.create "Person" h) in
  let h1 := snd (MemoryAggregateImpl.create "Person" h) in
  (MemoryAggregateImpl._get_entities h other < next_loc h)%nat /\
  MemoryAggregateImpl.count h1 created = Ok 0 /\
  stored h1 other = [ann; bob].
Proof.
  intros h other created h1.
  assert (MemoryAggregateImpl._get_entities h other < next_loc h)%nat as Hlt
    by (vm_compute; lia).
  destruct (create_is_empty_and_apart h "Person" other VNone Hlt)
    as (_ & _ & H3 & _ & _ & _ & H7).
  split; [exact Hlt |]. split; [exact H3 |].
  fold h1 in H7. rewrite H7. vm_compute. reflexivity.
Defined.

(** ** Removing from memory aggregates *)

Lemma py_list_remove_from_spec {A : Type} `{!EqDecision A}
    (same_object : nat -> bool) (eqb : A -> A -> bool) (x : A) (l : list A) :
  forall i,
  match py_list_remove_from same_object eqb x i l with
  | Ok l' =>
      exists pre y post,
        l = (pre ++ y :: post)%list /\
        py_matches same_object eqb x (i + length pre) y = true /\
        (forall j z, pre !! j = Some z ->
                     py_matches same_object eqb x (i + j) z = false) /\
        l' = (pre ++ post)%list
  | Raise e =>
      e = ValueError /\
      forall j z, l !! j = Some z ->
                  py_matches same_object eqb x (i + j) z = false
  end.
Proof.
  induction l as [| y l IH]; intros i; simpl; [done |].
  destruct (py_matches same_object eqb x i y) eqn:Hy; simpl.
  - exists [], y, l. simpl. rewrite Nat.add_0_r. done.
  - specialize (IH (S i)).
    destruct (py_list_remove_from same_object eqb x (S i) l) as [l' | e]; simpl.
    + destruct IH as (pre & z & post & -> & Hz & Hpre & ->).
      exists (y :: pre), z, post. simpl.
      split; [done |]. split; [by rewrite Nat.add_succ_r |]. split; [| done].
      intros [| j] w Hw; simpl in Hw.
      * injection Hw as <-. by rewrite Nat.add_0_r.
      * rewrite Nat.add_succ_r. by apply Hpre.
    + destruct IH as [-> IH]. split; [done |].
      intros [| j] w Hw; simpl in Hw.
      * injection Hw as <-. by rewrite Nat.add_0_r.
      * rewrite Nat.add_succ_r. by apply IH.
Qed.

Lemma py_list_remove_from_last {A : Type} `{!EqDecision A}
    (same_object : nat -> bool) (eqb : A -> A -> bool) (x : A) (l : list A) :
  forall i,
  eqb x x = true ->
  (forall j z, l !! j = Some z ->
               py_matches same_object eqb x (i + j) z = false) ->
  py_list_remove_from same_object eqb x i (l ++ [x]) = Ok l.
Proof.
  induction l as [| y l IH]; intros i Hx Hl; simpl.
  - unfold py_matches. by rewrite Hx, orb_true_r.
  - rewrite <- (Nat.add_0_r i) at 1. rewrite (Hl 0%nat y) by done.
    rewrite IH; [done | done |].
    intros j z Hz. rewrite Nat.add_succ_l, <- Nat.add_succ_r.
    by apply (Hl (S j)).
Qed.

Lemma stored_assign (h : heap) (self : MemoryAggregateImpl.t) (ents : list entity) :
  stored (Heap (<[MemoryAggregateImpl._get_entities h self := ents]> (lists h))
               (rels h) (next_loc h)) self = ents.
Proof.
  unfold stored, read_list, MemoryAggregateImpl._get_entities. simpl.
  by rewrite lookup_total_insert_eq.
Qed.

(** X6.  [remove] takes exactly one entity out of the list of the
    aggregate: the first stored entity that matches the given one, that
    is, that is the given object itself or is equal to it; the entities
    before and after it stay, in their order.  When no stored entity
    matches, it raises [ValueError]. *)
Theorem remove_takes_first_equal (entity_eq : entity -> entity -> bool)
    (same_object : nat -> bool)
    (h : heap) (self : MemoryAggregateImpl.t) (entity : entity) :
  match MemoryAggregateImpl.remove entity_eq same_object h self entity with
  | Ok h' =>
      exists pre ent post,
        stored h self = (pre ++ ent :: post)%list /\
        py_matches same_object entity_eq entity (length pre) ent = true /\
        (forall j z, pre !! j = Some z ->
                     py_matches same_object entity_eq entity j z = false) /\
        stored h' self = (pre ++ post)%list /\
        S (length (stored h' self)) = length (stored h self)
  | Raise e =>
      e = ValueError /\
      forall j z, stored h self !! j = Some z ->
                  py_matches same_object entity_eq entity j z = false
  end.
Proof.
  unfold MemoryAggregateImpl.remove, py_list_remove. fold (stored h self).
  pose proof (py_list_remove_from_spec same_object entity_eq entity
                (stored h self) 0) as H.
  destruct (py_list_remove_from same_object entity_eq entity 0 (stored h self))
    as [rest | e]; simpl; [| done].
  destruct H as (pre & ent & post & Hst & Heq & Hpre & ->).
  exists pre, ent, post. rewrite stored_assign, Hst.
  repeat (split; [done |]). rewrite !length_app. simpl. lia.
Qed.

(** X7.  [remove] undoes [add]: when the [==] of entities holds between
    the entity and itself and no stored entity is equal to it, removing the
    entity after an [add] of it that returned gives back the stored entities
    as they were. *)
Theorem add_then_remove (entity_eq : entity -> entity -> bool)
    (same_object : nat -> bool)
    (h h1 : heap) (self : MemoryAggregateImpl.t) (entity : entity) :
  entity_eq entity entity = true ->
  existsb (fun z => entity_eq z entity) (stored h self) = false ->
  MemoryAggregateImpl.add h self entity = Ok h1 ->
  exists h2,
    MemoryAggregateImpl.remove entity_eq same_object h1 self entity = Ok h2 /\
    stored h2 self = stored h self.
Proof.
  intros Hrefl Hnone Hadd. apply add_ok_list_append in Hadd as Hh1.
  assert (stored h1 self = (stored h self ++ [entity])%list) as Hst
    by (rewrite Hh1; apply stored_list_append).
  unfold MemoryAggregateImpl.remove, py_list_remove. fold (stored h1 self).
  rewrite Hst, py_list_remove_from_last.
  - eexists. split; [reflexivity |]. apply stored_assign.
  - exact Hrefl.
  - intros j z Hz. simpl.
    assert (entity_eq z entity = false) as Hne.
    { destruct (entity_eq z entity) eqn:Hze; [| done].
      assert (existsb (fun z => entity_eq z entity) (stored h self) = true) as Ht.
      { apply existsb_exists. exists z. split; [| done].
        apply list_elem_of_In. by eapply list_elem_of_lookup_2. }
      congruence. }
    unfold py_matches. rewrite Hne, orb_false_r.
    destruct (same_object j); [| done]. simpl.
    apply bool_decide_eq_false. intros ->. congruence.
Qed.

Lemma add_then_remove_witness :
  let h := store_of [ann; bob] in
  let h1 := store_of [ann; bob; cid] in
  let self := persons None None None in
  same_entity cid cid = true /\
  existsb (fun z => same_entity z cid) (stored h self) = false /\
  MemoryAggregateImpl.add h self cid = Ok h1 /\
  exists h2,
    MemoryAggregateImpl.remove same_entity (Nat.eqb 2) h1 self cid = Ok h2 /\
    stored h2 self = stored h self.
Proof.
  intros h h1 self.
  split; [vm_compute; reflexivity |]. split; [vm_compute; reflexivity |].
  split; [vm_compute; reflexivity |].
  apply (add_then_remove same_entity (Nat.eqb 2) h h1 self cid);
    vm_compute; reflexivity.
Defined.

(** ** Rebinding the list of a memory aggregate *)

(** X8.  After [_set_entities] the aggregate works on the given list.  For
    an aggregate without a relationship only its own reference is rebound:
    the store is unchanged.  For an aggregate scoped by a relationship the
    children of the relationship are rebound, so every aggregate scoped by
    the same relationship works on the given list as well; no list is
    changed in either case. *)
Theorem set_entities_rebinds (h : heap) (self other : MemoryAggregateImpl.t)
    (entities : loc) :
  let self' := fst (MemoryAggregateImpl._set_entities h self entities) in
  let h' := snd (MemoryAggregateImpl._set_entities h self entities) in
  MemoryAggregateImpl._get_entities h' self' = entities /\
  lists h' = lists h /\
  match AggregateImpl._relationship (MemoryAggregateImpl.base self) with
  | None => h' = h
  | Some r =>
      self' = self /\
      MemoryAggregateImpl._get_entities h' (memory_set_relationship other (Some r))
      = entities
  end.
Proof.
  unfold MemoryAggregateImpl._set_entities, MemoryAggregateImpl._get_entities.
  destruct self as [[rel cls fs os sk] ents]; simpl.
  destruct rel as [r |]; simpl.
  - by rewrite lookup_total_insert_eq.
  - done.
Qed.

(** X9.  Rebinding ends the sharing between clones: when a clone of an
    aggregate without a relationship is given another list with
    [_set_entities], an [add] through the clone is no longer visible
    through the original. *)
Theorem set_entities_detaches_clone (h0 h h' : heap)
    (self : MemoryAggregateImpl.t) (entities : loc) (entity : entity) :
  AggregateImpl._relationship (MemoryAggregateImpl.base self) = None ->
  (MemoryAggregateImpl.__entities self =? entities)%nat = false ->
  let clone := fst (MemoryAggregateImpl.clone self h0) in
  let rebound := fst (MemoryAggregateImpl._set_entities h clone entities) in
  MemoryAggregateImpl.add h rebound entity = Ok h' ->
  stored h clone = stored h self /\
  stored h' rebound = (read_list h entities ++ [entity])%list /\
  stored h' self = stored h self.
Proof.
  intros Hrel Hne clone rebound Hadd. apply Nat.eqb_neq in Hne.
  assert (MemoryAggregateImpl._get_entities h rebound = entities) as Hg.
  { unfold rebound, clone, MemoryAggregateImpl._set_entities,
      MemoryAggregateImpl.clone, MemoryAggregateImpl._get_entities.
    destruct self as [[rel cls fs os sk] ents]; simpl in *. by subst rel. }
  assert (MemoryAggregateImpl._get_entities h self
          = MemoryAggregateImpl.__entities self) as Hs.
  { unfold MemoryAggregateImpl._get_entities. by rewrite Hrel. }
  split.
  { unfold stored, clone. by rewrite clone_get_entities. }
  split.
  - apply add_ok_list_append in Hadd as ->.
    rewrite stored_list_append. unfold stored. by rewrite Hg.
  - apply (stored_after_add_elsewhere h h' rebound self entity Hadd).
    rewrite Hg, Hs. done.
Qed.

Lemma set_entities_detaches_clone_witness :
  let h := two_lists [ann] [bob] in
  let self := persons_at 0%nat in
  let clone := fst (MemoryAggregateImpl.clone self empty_heap) in
  let rebound := fst (MemoryAggregateImpl._set_entities h clone 1%nat) in
  AggregateImpl._relationship (MemoryAggregateImpl.base self) = None /\
  (MemoryAggregateImpl.__entities self =? 1)%nat = false /\
  MemoryAggregateImpl.add h rebound cid = Ok (two_lists [ann] [bob; cid]) /\
  stored (two_lists [ann] [bob; cid]) rebound = [bob; cid] /\
  stored (two_lists [ann] [bob; cid]) self = [ann].
Proof.
  intros h self clone rebound.
  assert (MemoryAggregateImpl.add h rebound cid = Ok (two_lists [ann] [bob; cid]))
    as Hadd by (vm_compute; reflexivity).
  destruct (set_entities_detaches_clone empty_heap h (two_lists [ann] [bob; cid])
              self 1%nat cid eq_refl eq_refl Hadd) as (_ & H2 & H3).
  do 3 (split; [done |]). split; [exact H2 | exact H3].
Defined.

(** ** Queries of ORM aggregates *)



(** X11.  The ORM aggregate passes only the start and the stop of its
    slice to the query: the step of the slice has no effect on what its
    iterator yields or does. *)
Theorem orm_iterator_ignores_step (db : backend) (h : heap)
    (self : OrmAggregateImpl.t) (a b c : option Z) :
  fst (OrmAggregateImpl.iterator db h (orm_with_slice self (Some (Slice a b c))))
  = fst (OrmAggregateImpl.iterator db h
           (orm_with_slice self (Some (Slice a b None)))) /\
  OrmAggregateImpl._session
    (snd (OrmAggregateImpl.iterator db h (orm_with_slice self (Some (Slice a b c)))))
  = OrmAggregateImpl._session
      (snd (OrmAggregateImpl.iterator db h
              (orm_with_slice self (Some (Slice a b None))))).
Proof.
  unfold OrmAggregateImpl.iterator, OrmAggregateImpl.__defaults_empty,
    orm_with_slice.
  destruct self as [[rel cls fs os sk] sess sm]; simpl.
  destruct rel as [r |]; simpl;
    destruct (bool_decide (fs = None) && sm); split; reflexivity.
Qed.


(** X12.  A clone of an ORM aggregate has the relationship, filter, order
    and slice of the original and is on the session [create] got, but it is
    never in search mode: [create] leaves the search mode at its default.
    So the [count] of the clone always runs the count query, also when the
    original is in search mode and returns 0 without a query. *)
Theorem orm_clone_leaves_search_mode (db : backend) (h : heap)
    (session : list session_op) (self : OrmAggregateImpl.t) :
  let clone := OrmAggregateImpl.clone session self in
  OrmAggregateImpl.base clone = OrmAggregateImpl.base self /\
  OrmAggregateImpl._session clone = session /\
  OrmAggregateImpl._search_mode clone = false /\
  OrmAggregateImpl.__defaults_empty clone = false /\
  fst (OrmAggregateImpl.count db h clone)
  = Z.of_nat (length (rows db (OrmAggregateImpl.__get_filtered_query h self None))) /\
  last (OrmAggregateImpl._session (snd (OrmAggregateImpl.count db h clone)))
  = Some (SCount (OrmAggregateImpl.__get_filtered_query h self None)).
Proof.
  intros clone. unfold clone, OrmAggregateImpl.clone, OrmAggregateImpl.create,
    OrmAggregateImpl.count, OrmAggregateImpl.__defaults_empty.
  destruct self as [[rel cls fs os sk] sess sm]; simpl.
  repeat (split; [done |]).
  split; [by rewrite andb_false_r |].
  destruct rel as [r |]; simpl; rewrite andb_false_r; simpl;
    (split; [reflexivity |]); by rewrite last_snoc.
Qed.

(** ** Point lookups, order and slice *)

(** X13.  Point lookups use neither the order nor the slice of the
    aggregate: in a memory aggregate and in an ORM aggregate, [get_by_id]
    and [get_by_slug] return the same, and the ORM aggregate asks its
    session the same, whatever order and slice are set. *)
Theorem point_lookup_ignores_order_and_slice (db : backend) (h : heap)
    (mem : MemoryAggregateImpl.t) (orm : OrmAggregateImpl.t)
    (order_spec : option order_spec) (slice_key : option py_slice) (key : value) :
  MemoryAggregateImpl.get_by_id h (with_order_slice mem order_spec slice_key) key
  = MemoryAggregateImpl.get_by_id h mem key /\
  MemoryAggregateImpl.get_by_slug h (with_order_slice mem order_spec slice_key) key
  = MemoryAggregateImpl.get_by_slug h mem key /\
  fst (OrmAggregateImpl.get_by_id db h
         (orm_with_order_slice orm order_spec slice_key) key)
  = fst (OrmAggregateImpl.get_by_id db h orm key) /\
  OrmAggregateImpl._session
    (snd (OrmAggregateImpl.get_by_id db h
            (orm_with_order_slice orm order_spec slice_key) key))
  = OrmAggregateImpl._session (snd (OrmAggregateImpl.get_by_id db h orm key)) /\
  fst (OrmAggregateImpl.get_by_slug db h
         (orm_with_order_slice orm order_spec slice_key) key)
  = fst (OrmAggregateImpl.get_by_slug db h orm key) /\
  OrmAggregateImpl._session
    (snd (OrmAggregateImpl.get_by_slug db h
            (orm_with_order_slice orm order_spec slice_key) key))
  = OrmAggregateImpl._session (snd (OrmAggregateImpl.get_by_slug db h orm key)).
Proof.
  split; [reflexivity |]. split; [reflexivity |].
  unfold OrmAggregateImpl.get_by_id, OrmAggregateImpl.get_by_slug,
    OrmAggregateImpl.__get_filtered_query, OrmAggregateImpl._get_base_query,
    OrmAggregateImpl._query_generator, orm_with_order_slice.
  destruct orm as [[rel cls fs os sk] sess sm]; simpl.
  repeat split;
    match goal with
    | |- context [rows db ?q] => by destruct (rows db q) as [| ? [| ? ?]]
    end.
Qed.

(** ** Translation of order specifications and of plain names *)

(** X14.  When the translation of an order specification succeeds, the
    translated tree has the shape of the input; every leaf keeps its class,
    that is its direction, and its new attribute name is the ['.']-join of
    the entity names found by resolving the tokens of the old name. *)
Theorem order_translation_preserves_structure (reg : registry)
    (rc_class : string) (s s' : order_spec) :
  translate reg rc_class s = Ok s' ->
  shape s' = shape s /\
  Forall2 (fun leaf leaf' =>
             o_class leaf' = o_class leaf /\
             exists ents,
               resolves reg rc_class (split_dot (o_attr_name leaf)) ents /\
               o_attr_name leaf' = join_dot ents)
          (leaves s) (leaves s').
Proof.
  rewrite translate_translate_spec. intros H.
  apply translate_spec_ok in H as [Hs Hl]. split; [done |].
  eapply Forall2_impl; [exact Hl |].
  intros leaf leaf' (name & Hc & ->). simpl.
  apply convert_ok in Hc as (ents & Hr & ->). eauto.
Qed.

Lemma order_translation_preserves_structure_witness :
  translate example_registry "PersonMember" example_order
  = Ok example_order_translated /\
  shape example_order_translated = shape example_order /\
  Forall2 (fun leaf leaf' =>
             o_class leaf' = o_class leaf /\
             exists ents,
               resolves example_registry "PersonMember"
                        (split_dot (o_attr_name leaf)) ents /\
               o_attr_name leaf' = join_dot ents)
          (leaves example_order) (leaves example_order_translated).
Proof.
  assert (translate example_registry "PersonMember" example_order
          = Ok example_order_translated) as H by (vm_compute; reflexivity).
  split; [exact H |].
  exact (order_translation_preserves_structure example_registry "PersonMember"
           example_order example_order_translated H).
Defined.

Lemma split_dot_not_nil (s : string) : split_dot s <> [].
Proof.
  destruct s as [| c s]; simpl; [done |].
  destruct (Ascii.eqb c dot); [done |]. by destruct (split_dot s).
Qed.

(** Splitting at the dots and joining with dots gives the string back. *)
Lemma join_split_dot (s : string) : join_dot (split_dot s) = s.
Proof.
  unfold join_dot. induction s as [| c s IH]; simpl; [done |].
  destruct (Ascii.eqb c dot) eqn:Hc.
  - apply Ascii.eqb_eq in Hc as ->.
    destruct (split_dot s) as [| t ts] eqn:Hs; [by apply split_dot_not_nil in Hs |].
    simpl in *. by rewrite IH.
  - destruct (split_dot s) as [| t ts] eqn:Hs; [by apply split_dot_not_nil in Hs |].
    destruct ts as [| t' ts]; simpl in *; rewrite <- IH; reflexivity.
Qed.

Lemma identity_path_resolves (reg : registry) (toks : list string) :
  forall rc, identity_path reg rc toks = true -> resolves reg rc toks toks.
Proof.
  induction toks as [| tok toks IH]; intros rc H; simpl in H; [constructor |].
  destruct (get_resource_class_attributes reg rc !! tok) as [a |] eqn:Ha;
    [| discriminate].
  apply andb_true_iff in H as [Hn Hp]. apply String.eqb_eq in Hn.
  rewrite <- Hn at 2. econstructor; [exact Ha |]. by apply IH.
Qed.

(** X15.  Where the entity names are the resource names, the translation
    changes nothing: when every token of the attribute name of every leaf
    names an attribute, of the class current at it, whose entity name is
    the token itself, the translation succeeds and returns the
    specification it was given. *)
Theorem translation_of_plain_names (reg : registry) (rc_class : string)
    (s : filter_spec) :
  forallb (fun leaf => identity_path reg rc_class (split_dot (f_attr_name leaf)))
          (leaves s) = true ->
  translate reg rc_class s = Ok s.
Proof.
  rewrite translate_translate_spec.
  induction s as [leaf | cls w IH | cls l IHl r IHr]; simpl; intros H.
  - rewrite andb_true_r in H. apply identity_path_resolves in H.
    assert (__convert_to_entity_attr reg rc_class (f_attr_name leaf)
            = Ok (f_attr_name leaf)) as ->.
    { apply convert_ok. exists (split_dot (f_attr_name leaf)).
      split; [done |]. by rewrite join_split_dot. }
    simpl. by destruct leaf.
  - by rewrite IH.
  - rewrite forallb_app in H. apply andb_true_iff in H as [H1 H2].
    by rewrite IHl, IHr.
Qed.

Lemma translation_of_plain_names_witness :
  forallb (fun leaf =>
             identity_path plain_registry "PersonMember"
                           (split_dot (f_attr_name leaf)))
          (leaves example_filter) = true /\
  translate plain_registry "PersonMember" example_filter = Ok example_filter.
Proof.
  split; [vm_compute; reflexivity |].
  apply (translation_of_plain_names plain_registry "PersonMember" example_filter).
  vm_compute. reflexivity.
Defined.

(** ** Representer directives *)

Lemma split_dot_inj (s1 s2 : string) : split_dot s1 = split_dot s2 -> s1 = s2.
Proof.
  intros H. rewrite <- (join_split_dot s1), <- (join_split_dot s2). by rewrite H.
Qed.

Lemma attribute_directives_snoc {O : Type} (directives : list (string * O))
    (name : string) (options : O) :
  attribute_directives (directives ++ [(name, options)])
  = attribute_directive_after (attribute_directives directives) name options.
Proof. unfold attribute_directives. by rewrite fold_left_app. Qed.

Lemma attribute_directives_lookup {O : Type} (directives : list (string * O))
    (name : string) :
  attribute_directives directives !! split_dot name = last_options name directives.
Proof.
  induction directives as [| [n o] ds IH] using rev_ind; [done |].
  rewrite attribute_directives_snoc. unfold attribute_directive_after, last_options.
  rewrite List.filter_app. simpl.
  destruct (String.eqb n name) eqn:Hn.
  - apply String.eqb_eq in Hn as ->. rewrite lookup_insert_eq.
    by rewrite last_snoc.
  - apply String.eqb_neq in Hn. rewrite lookup_insert_ne.
    + rewrite IH. unfold last_options. by rewrite app_nil_r.
    + intros Heq. by apply split_dot_inj in Heq.
Qed.

(** X16.  The options of nested attributes are recorded under the tokens of
    the attribute name: after a run of attribute directives the attribute
    options hold, under the key of a name, the options of the last directive
    with exactly this name (directives with other names never overwrite
    them) and nothing for a name no directive had.  The representer
    directive records them under its content type and kind, with [None] in
    their place when there was no attribute directive. *)
Theorem attribute_options_by_name {O : Type} (directives : list (string * O))
    (name : string)
    (representers : gmap (string * option string)
                         (O * option (gmap (list string) O)))
    (content_type : string) (kind : option string) (options : O) :
  attribute_directives directives !! split_dot name = last_options name directives /\
  representer_directive_after representers content_type kind options
    (attribute_directives directives) !! (content_type, kind)
  = Some (options, match directives with
                   | [] => None
                   | _ :: _ => Some (attribute_directives directives)
                   end).
Proof.
  split; [apply attribute_directives_lookup |].
  unfold representer_directive_after. rewrite lookup_insert_eq. do 2 f_equal.
  destruct directives as [| d ds] using rev_ind; [done |].
  destruct d as [n o]. rewrite attribute_directives_snoc.
  unfold attribute_directive_after.
  rewrite bool_decide_eq_false_2.
  - by destruct (ds ++ [(n, o)])%list eqn:Hd; [destruct ds |].
  - intros Hsize. apply map_size_empty_iff in Hsize.
    by apply insert_non_empty in Hsize.
Qed.

(** ** Collections *)

(** X17.  [get] gives the default exactly for a key no row has: with the
    rows the lookup query selects, it returns the default when there is
    none, the member of the entity when there is one, and raises the
    duplicate error, not the default, when there are more.  Where [get]
    gives the default, [__getitem__] raises [KeyError].  Both run this one
    query. *)
Theorem collection_get_default {M : Type} (as_member : entity -> Collection.t -> M)
    (db : backend) (h : heap) (self : Collection.t) (key : value) (default : M) :
  let q := slug_query h (Collection.__aggregate self) key in
  let after := snd (Collection.__getitem__ as_member db h self key) in
  snd (Collection.get as_member db h self key default) = after /\
  OrmAggregateImpl._session (Collection.__aggregate after)
  = (OrmAggregateImpl._session (Collection.__aggregate self) ++ [SOne q])%list /\
  match rows db q with
  | [] =>
      fst (Collection.__getitem__ as_member db h self key) = Raise KeyError /\
      fst (Collection.get as_member db h self key default) = Ok default
  | [ent] =>
      fst (Collection.__getitem__ as_member db h self key)
      = Ok (as_member ent after) /\
      fst (Collection.get as_member db h self key default)
      = Ok (as_member ent after)
  | _ :: _ :: _ =>
      fst (Collection.__getitem__ as_member db h self key)
      = Raise DuplicateException /\
      fst (Collection.get as_member db h self key default)
      = Raise DuplicateException
  end.
Proof.
  intros q after. unfold after, q, slug_query, Collection.get,
    Collection.__getitem__, OrmAggregateImpl.get_by_slug.
  destruct (rows db _) as [| ent [| ent' rest]]; simpl; done.
Qed.

Lemma translated_to_refl {L : Type} `{!LeafSpec L} (reg : registry)
    (rc_class : string) (s e : spec L) :
  translate reg rc_class s = Ok e ->
  translated_to reg rc_class (Some s) (Some e).
Proof. done. Qed.



(** ** Slices of iterations *)

Lemma slice_indices_bounds (key : py_slice) (len a0 b0 st0 : Z) :
  0 <= len ->
  slice_indices key len = Ok (a0, b0, st0) ->
  0 <= slice_length a0 b0 st0 <= len.
Proof.
  unfold slice_indices, slice_length. intros Hlen.
  destruct (Z.eqb_spec (default 1 (step key)) 0) as [| Hstep];
    [discriminate |].
  intros [= <- <- <-]. set (st := default 1 (step key)) in *.
  destruct (Z.ltb_spec st 0) as [Hneg | Hpos].
  - assert (forall i, -1 <= (if i <? 0 then Z.max (i + len) (-1)
                              else Z.min i (len - 1)) <= len - 1) as Hadj.
    { intros i. destruct (Z.ltb_spec i 0); lia. }
    assert (-1 <= match start key with
                  | Some i => if i <? 0 then Z.max (i + len) (-1)
                              else Z.min i (len - 1)
                  | None => len - 1
                  end <= len - 1) as Ha
      by (destruct (start key); [apply Hadj | lia]).
    assert (-1 <= match stop key with
                  | Some i => if i <? 0 then Z.max (i + len) (-1)
                              else Z.min i (len - 1)
                  | None => -1
                  end <= len - 1) as Hb
      by (destruct (stop key); [apply Hadj | lia]).
    set (a := match start key with Some _ => _ | None => _ end) in *.
    set (b := match stop key with Some _ => _ | None => _ end) in *.
    destruct (Z.ltb_spec b a) as [Hlt | Hge]; [| lia].
    assert (0 <= (a - b - 1) / - st <= a - b - 1); [| lia].
    split; [apply Z.div_pos; lia |].
    apply Z.div_le_upper_bound; nia.
  - assert (forall i, 0 <= (if i <? 0 then Z.max (i + len) 0
                            else Z.min i len) <= len) as Hadj.
    { intros i. destruct (Z.ltb_spec i 0); lia. }
    assert (0 <= match start key with
                 | Some i => if i <? 0 then Z.max (i + len) 0 else Z.min i len
                 | None => 0
                 end <= len) as Ha
      by (destruct (start key); [apply Hadj | lia]).
    assert (0 <= match stop key with
                 | Some i => if i <? 0 then Z.max (i + len) 0 else Z.min i len
                 | None => len
                 end <= len) as Hb
      by (destruct (stop key); [apply Hadj | lia]).
    set (a := match start key with Some _ => _ | None => _ end) in *.
    set (b := match stop key with Some _ => _ | None => _ end) in *.
    destruct (Z.ltb_spec a b) as [Hlt | Hge]; [| lia].
    assert (0 <= (b - a - 1) / st <= b - a - 1); [| lia].
    split; [apply Z.div_pos; lia |].
    apply Z.div_le_upper_bound; nia.
Qed.

Lemma length_omap_le {A B : Type} (f : A -> option B) (l : list A) :
  (length (omap f l) <= length l)%nat.
Proof.
  induction l as [| x l IH]; [done |].
  csimpl. destruct (f x); simpl; lia.
Qed.

Lemma py_getslice_within {A : Type} (l : list A) (key : py_slice) :
  match py_getslice l key with
  | Ok l' => (length l' <= length l)%nat /\ (forall x, x ∈ l' -> x ∈ l)
  | Raise e => e = ValueError /\ step key = Some 0
  end.
Proof.
  unfold py_getslice.
  destruct (slice_indices key (Z.of_nat (length l))) as [[[a b] st] | e] eqn:Hi;
    simpl.
  - apply slice_indices_bounds in Hi; [| lia]. split.
    + etrans; [apply length_omap_le |]. rewrite length_seq. lia.
    + intros x Hx. apply list_elem_of_omap in Hx as (i & _ & Hx).
      by eapply list_elem_of_lookup_2.
  - unfold slice_indices in Hi.
    destruct (Z.eqb_spec (default 1 (step key)) 0) as [H0 |]; [| discriminate].
    injection Hi as <-. split; [done |].
    destruct (step key) as [z |]; simpl in H0; [by subst | discriminate].
Qed.

(** X19.  A slice only takes away: whatever slice key a memory aggregate
    has, its iterator yields no more items than without the slice, and only
    items it yields without the slice.  The only slice key that makes the
    iteration raise is one with step 0, and what it raises is
    [ValueError]. *)
Theorem sliced_iteration_within_unsliced (h : heap)
    (self : MemoryAggregateImpl.t) (slice_key : py_slice)
    (unsliced : list entity) :
  MemoryAggregateImpl.iterator h (with_slice self None) = Ok unsliced ->
  match MemoryAggregateImpl.iterator h (with_slice self (Some slice_key)) with
  | Ok sliced =>
      (length sliced <= length unsliced)%nat /\
      (forall ent, ent ∈ sliced -> ent ∈ unsliced)
  | Raise e => e = ValueError /\ step slice_key = Some 0
  end.
Proof.
  intros Hu. rewrite (iterator_with_slice h self unsliced) by done.
  apply py_getslice_within.
Qed.

Lemma sliced_iteration_within_unsliced_witness :
  let h := store_of [ann; bob; cid; dan; eve] in
  let self := persons None None None in
  MemoryAggregateImpl.iterator h (with_slice self None)
  = Ok [ann; bob; cid; dan; eve] /\
  MemoryAggregateImpl.iterator h
    (with_slice self (Some (Slice None None (Some (-2)))))
  = Ok [eve; cid; ann] /\
  match MemoryAggregateImpl.iterator h
          (with_slice self (Some (Slice None None (Some (-2))))) with
  | Ok sliced =>
      (length sliced <= length [ann; bob; cid; dan; eve])%nat /\
      (forall ent, ent ∈ sliced -> ent ∈ [ann; bob; cid; dan; eve])
  | Raise e => e = ValueError /\ step (Slice None None (Some (-2))) = Some 0
  end.
Proof.
  intros h self. split; [vm_compute; reflexivity |].
  split; [vm_compute; reflexivity |].
  apply (sliced_iteration_within_unsliced h self (Slice None None (Some (-2)))
           [ann; bob; cid; dan; eve]).
  vm_compute. reflexivity.
Defined.

(** ** Repository directives *)

(** X20.  A repository directive without a name configures the built-in
    repository of its type: it makes the call the same directive makes
    when it is given the repository type as its name, and yet the two
    register their actions under different discriminators.  The
    configuration passed on holds exactly the settings that were given:
    none for a memory repository, the directory and the content type of a
    file system repository, the connection string and the metadata factory
    of an ORM repository. *)
Theorem repository_directive_defaults (MEMORY FILE_SYSTEM ORM : string)
    (make_default : bool) (agg_cls ent_store_cls : option string)
    (directory content_type db_string metadata_factory : option string)
    (name : option string) :
  let fs n := filesystem_repository FILE_SYSTEM n make_default agg_cls
                ent_store_cls directory content_type in
  let orm n := orm_repository ORM n make_default agg_cls ent_store_cls
                 db_string metadata_factory in
  let mem n := memory_repository MEMORY n make_default agg_cls ent_store_cls in
  same_call (mem None) (mem (Some MEMORY)) /\
  same_call (fs None) (fs (Some FILE_SYSTEM)) /\
  same_call (orm None) (orm (Some ORM)) /\
  discriminator (mem None) <> discriminator (mem (Some MEMORY)) /\
  discriminator (fs None) <> discriminator (fs (Some FILE_SYSTEM)) /\
  discriminator (orm None) <> discriminator (orm (Some ORM)) /\
  configuration (mem name) = ∅ /\
  configuration (fs name) !! "directory" = directory /\
  configuration (fs name) !! "content_type" = content_type /\
  configuration (orm name) !! "db_string" = db_string /\
  configuration (orm name) !! "metadata_factory" = metadata_factory /\
  (forall key, key <> "directory" -> key <> "content_type" ->
               configuration (fs name) !! key = None) /\
  (forall key, key <> "db_string" -> key <> "metadata_factory" ->
               configuration (orm name) !! key = None).
Proof.
  intros fs orm mem. unfold fs, orm, mem, same_call, filesystem_repository,
    orm_repository, memory_repository, _repository. simpl.
  repeat (split; [done |]).
  split; [| split; [| split; [| split; [| split]]]].
  - destruct directory, content_type; by simplify_map_eq.
  - destruct directory, content_type; by simplify_map_eq.
  - destruct db_string, metadata_factory; by simplify_map_eq.
  - destruct db_string, metadata_factory; by simplify_map_eq.
  - intros key H1 H2. destruct directory, content_type; by simplify_map_eq.
  - intros key H1 H2. destruct db_string, metadata_factory; by simplify_map_eq.
Qed.
